(** * ParkEasy: the slot inventory, the booking transaction and the fee
    calculator of [database.py], [database_postgres.py] and [app.py].

    The two relational tables the core works on ([slots], [bookings]) are
    lists of rows in insertion order; SQL statements are list functions;
    the body of a [with get_db_connection() as conn:] block is a
    computation in a small state-and-exception monad, and the context
    manager commits the state it produced or rolls it back and re-raises. *)

From stdpp Require Import base tactics option list sorting strings pretty gmap.
From Stdlib Require Import ZArith.

(** ** Rows and tables *)

(** A row of [slots]: [id], [slot_type], [slot_name], [price], [is_booked]
    ([created_at] is never read). *)
Record SlotRow := mkSlot {
  slot_id   : nat;
  slot_type : string;
  slot_name : string;
  price     : Z;
  is_booked : bool
}.

(** A row of [bookings].  The surrogate key [bookings.id] is assigned by the
    engine and no operation returns or compares it, so it is left out;
    [user_id] is nullable.  Amounts are the integers [app.py] passes
    ([grand_total]); times are points on the clock, later is larger. *)
Record BookingRow := mkBooking {
  b_slot_id           : nat;
  b_user_id           : option Z;
  b_booking_time      : Z;
  b_booking_reference : string;
  b_total_amount      : Z;
  b_status            : string
}.

(** The [users] table is outside the core.  The user ids handed to the
    operations come from the session and are ids of existing users, so the
    foreign key on [bookings.user_id] holds whether the engine checks it
    (PostgreSQL) or not (SQLite). *)
Record DB := mkDB {
  slots    : list SlotRow;
  bookings : list BookingRow
}.

Global Instance SlotRow_eq_dec : EqDecision SlotRow.
Proof. solve_decision. Defined.
Global Instance BookingRow_eq_dec : EqDecision BookingRow.
Proof. solve_decision. Defined.
Global Instance DB_eq_dec : EqDecision DB.
Proof. solve_decision. Defined.

Definition empty_db : DB := mkDB [] [].

(** ** Exceptions and the transaction monad *)

Inductive exn :=
| IntegrityError (msg : string)
| OperationalError (msg : string)
| KeyError (key : string).

Inductive outcome (A : Type) :=
| Returned (a : A)
| Raised (e : exn).
Arguments Returned {A} a.
Arguments Raised {A} e.

(** Code run on a cursor: it reads and writes the tables and either yields
    a value or raises; what it wrote before raising is still there until
    the connection rolls back. *)
Definition Tx (A : Type) : Type := DB → outcome A * DB.

Definition tx_ret {A} (a : A) : Tx A := λ db, (Returned a, db).
Definition tx_raise {A} (e : exn) : Tx A := λ db, (Raised e, db).
Definition tx_bind {A B} (m : Tx A) (k : A → Tx B) : Tx B := λ db,
  match m db with
  | (Returned a, db') => k a db'
  | (Raised e, db') => (Raised e, db')
  end.
Definition tx_get : Tx DB := λ db, (Returned db, db).
Definition tx_put (db' : DB) : Tx unit := λ _, (Returned tt, db').

Global Instance Tx_ret : MRet Tx := @tx_ret.
Global Instance Tx_bind : MBind Tx := λ A B k m, tx_bind m k.

(** [get_db_connection]: [connect] is what opening the connection does
    ([None]: it opens; [Some e]: [sqlite3.connect] or [psycopg2.connect]
    raises [e], before the [try]).  The body's state is committed when it
    ends normally (also by a [return] inside the [with]); when it raises,
    the connection rolls back to the state it started from and the
    exception is raised again. *)
Definition get_db_connection {A} (connect : option exn) (body : Tx A) : Tx A :=
  λ db,
  match connect with
  | Some e => (Raised e, db)
  | None =>
      match body db with
      | (Returned a, db') => (Returned a, db')
      | (Raised e, _) => (Raised e, db)
      end
  end.

(** [try: body except Exception as e: handler(e)] *)
Definition try_except {A} (body : Tx A) (handler : exn → Tx A) : Tx A :=
  λ db,
  match body db with
  | (Returned a, db') => (Returned a, db')
  | (Raised e, db') => handler e db'
  end.

(** [for x in xs: body(x)] *)
Fixpoint for_each {R} (xs : list R) (body : R → Tx unit) : Tx unit :=
  match xs with
  | [] => mret tt
  | x :: xs' => body x;; for_each xs' body
  end.

(** [str(e)] of an exception. *)
Definition exn_str (e : exn) : string :=
  match e with
  | IntegrityError msg => msg
  | OperationalError msg => msg
  | KeyError key => "'" +:+ key +:+ "'"
  end.

(** ** Formatting *)

(** [f'{i}'] for a non-negative integer. *)
Definition str (n : nat) : string := pretty n.

(** [f'{n:02d}']: decimal, padded with zeros on the left to width 2. *)
Definition fmt_02d (n : nat) : string :=
  let s := str n in
  String.concat "" (replicate (2 - String.length s) "0") +:+ s.

(** [sep.join(l)] *)
Definition join (sep : string) (l : list string) : string := String.concat sep l.

(** ** Result shapes *)

(** The dictionary [book_slots] returns: [{'success': False, 'message'}] or
    [{'success': True, 'message', 'booked_count', 'price',
    'booking_reference'}]. *)
Inductive BookResult :=
| BookFailure (message : string)
| BookSuccess (message : string) (booked_count : nat) (unit_price : Z)
              (reference : string).

Definition success (r : BookResult) : bool :=
  match r with BookFailure _ => false | BookSuccess _ _ _ _ => true end.

Definition message (r : BookResult) : string :=
  match r with BookFailure m => m | BookSuccess m _ _ _ => m end.

(** What [reset_all_bookings] returns; ['error'] is present only in the
    failure dictionary of the PostgreSQL module. *)
Record ResetResult := mkReset {
  rr_success : bool;
  rr_message : string;
  rr_error   : option string
}.

(** One tier of the status snapshot: [{'price', 'slots', 'booked'}]. *)
Record TierStatus := mkTierStatus {
  ts_price  : Z;
  ts_slots  : list string;
  ts_booked : list string
}.

(** One tier of the statistics: [{'total', 'booked', 'available'}]. *)
Record TierStats := mkTierStats {
  st_total     : nat;
  st_booked    : nat;
  st_available : nat
}.

(** A slot inside a booking: [{'slot_name', 'slot_type', 'price'}]. *)
Record SlotInfo := mkSlotInfo {
  si_slot_name : string;
  si_slot_type : string;
  si_price     : Z
}.

(** A logical booking as the lookups return it. *)
Record Booking := mkBookingView {
  booking_reference : string;
  booking_time      : Z;
  total_amount      : Z;
  status            : string;
  booking_slots     : list SlotInfo
}.

Global Instance BookResult_eq_dec : EqDecision BookResult.
Proof. solve_decision. Defined.
Global Instance exn_eq_dec : EqDecision exn.
Proof. solve_decision. Defined.
Global Instance outcome_eq_dec `{EqDecision A} : EqDecision (outcome A).
Proof. solve_decision. Defined.
Global Instance ResetResult_eq_dec : EqDecision ResetResult.
Proof. solve_decision. Defined.
Global Instance TierStatus_eq_dec : EqDecision TierStatus.
Proof. solve_decision. Defined.
Global Instance TierStats_eq_dec : EqDecision TierStats.
Proof. solve_decision. Defined.
Global Instance SlotInfo_eq_dec : EqDecision SlotInfo.
Proof. solve_decision. Defined.
Global Instance Booking_eq_dec : EqDecision Booking.
Proof. solve_decision. Defined.

(** ** SQL statements shared by the two modules *)

(** [range(a, b)] *)
Definition range (a b : nat) : list nat := seq a (b - a).

(** The next [AUTOINCREMENT] / [SERIAL] id of [slots].  No operation deletes
    a slot, so the largest id ever used is the largest id in the table. *)
Definition next_slot_id (tbl : list SlotRow) : nat :=
  S (foldr Nat.max 0 (slot_id <$> tbl)).

(** [INSERT INTO slots (slot_type, slot_name, price) VALUES (?, ?, ?)]:
    [is_booked] takes its default 0.  [slot_name] is [UNIQUE]. *)
Definition insert_slot (r : string * string * Z) : Tx unit :=
  db ← tx_get;
  let '(ty, name, pr) := r in
  if bool_decide (name ∈ slot_name <$> slots db)
  then tx_raise (IntegrityError "UNIQUE constraint failed: slots.slot_name")
  else tx_put (mkDB (slots db ++ [mkSlot (next_slot_id (slots db)) ty name pr false])
                    (bookings db)).

(** [cursor.executemany(sql, rows)]: one statement per row, in order, up to
    the first that raises. *)
Fixpoint executemany {R} (stmt : R → Tx unit) (rows : list R) : Tx unit :=
  match rows with
  | [] => tx_ret tt
  | r :: rows' => stmt r;; executemany stmt rows'
  end.

(** [SELECT ... FROM slots WHERE slot_name IN (names) AND slot_type = ty
    AND is_booked = 1].  SQL leaves the order of the rows open when there
    is no [ORDER BY]; here they come in table order, and what is proved of
    them below does not depend on it. *)
Definition select_booked_among (names : list string) (ty : string)
    (tbl : list SlotRow) : list SlotRow :=
  filter (λ s, slot_name s ∈ names ∧ slot_type s = ty ∧ is_booked s = true) tbl.

(** [SELECT id, price FROM slots WHERE slot_name IN (names) AND
    slot_type = ty], rows in table order. *)
Definition select_among (names : list string) (ty : string)
    (tbl : list SlotRow) : list SlotRow :=
  filter (λ s, slot_name s ∈ names ∧ slot_type s = ty) tbl.

Definition set_is_booked (b : bool) (s : SlotRow) : SlotRow :=
  mkSlot (slot_id s) (slot_type s) (slot_name s) (price s) b.

(** [UPDATE slots SET is_booked = 1 WHERE id IN (ids)] *)
Definition update_booked (ids : list nat) : Tx unit :=
  db ← tx_get;
  tx_put (mkDB ((λ s, if bool_decide (slot_id s ∈ ids)
                      then set_is_booked true s else s) <$> slots db)
               (bookings db)).

(** [UPDATE slots SET is_booked = 0] *)
Definition update_all_free : Tx unit :=
  db ← tx_get;
  tx_put (mkDB (set_is_booked false <$> slots db) (bookings db)).

(** [DELETE FROM bookings] *)
Definition delete_bookings : Tx unit :=
  db ← tx_get;
  tx_put (mkDB (slots db) []).

(** [INSERT INTO bookings (slot_id, user_id, booking_reference,
    total_amount, booking_time) VALUES (?, ?, ?, ?, ?)]: [status] takes its
    default ['active'].  The column [booking_reference] is declared
    [UNIQUE] in both schemas: a row whose reference is already in the table
    is refused. *)
Definition insert_booking (r : nat * option Z * string * Z * Z) : Tx unit :=
  db ← tx_get;
  let '(sid, uid, ref, amount, time) := r in
  if bool_decide (ref ∈ b_booking_reference <$> bookings db)
  then tx_raise
         (IntegrityError "UNIQUE constraint failed: bookings.booking_reference")
  else tx_put (mkDB (slots db)
                    (bookings db ++ [mkBooking sid uid time ref amount "active"])).

(** [FROM bookings b JOIN slots s ON b.slot_id = s.id] *)
Definition join_bookings_slots (db : DB) : list (BookingRow * SlotRow) :=
  b ← bookings db;
  s ← filter (λ s, slot_id s = b_slot_id b) (slots db);
  [(b, s)].

(** SQL [=] against a nullable column: never true on [NULL]. *)
Definition sql_eq (col param : option Z) : Prop :=
  match col, param with
  | Some a, Some b => a = b
  | _, _ => False
  end.

Global Instance sql_eq_dec col param : Decision (sql_eq col param).
Proof. destruct col, param; simpl; apply _. Defined.

(** [ORDER BY b.booking_time DESC]; [merge_sort] keeps rows of equal time
    in the order they had. *)
Definition time_desc (x y : BookingRow * SlotRow) : Prop :=
  (b_booking_time x.1 >= b_booking_time y.1)%Z.

Global Instance time_desc_dec : RelDecision time_desc.
Proof. intros x y. unfold time_desc. apply _. Defined.

(** [ORDER BY slot_type, id] *)
Definition by_type_id (x y : SlotRow) : Prop :=
  if decide (slot_type x = slot_type y) then slot_id x ≤ slot_id y
  else String.le (slot_type x) (slot_type y).

Global Instance by_type_id_dec : RelDecision by_type_id.
Proof. intros x y. unfold by_type_id. case_decide; apply _. Defined.

(** [ORDER BY slot_type, slot_name]; text is compared character by
    character. *)
Definition by_type_name (x y : SlotRow) : Prop :=
  if decide (slot_type x = slot_type y)
  then String.le (slot_name x) (slot_name y)
  else String.le (slot_type x) (slot_type y).

Global Instance by_type_name_dec : RelDecision by_type_name.
Proof. intros x y. unfold by_type_name. case_decide; apply _. Defined.

(** ** Python code shared by the two modules *)

(** The dictionary [status] before the loop. *)
Definition status_init : gmap string TierStatus :=
  <["vip" := mkTierStatus 500 [] []]>
  (<["executive" := mkTierStatus 350 [] []]>
  (<["normal" := mkTierStatus 320 [] []]> ∅)).

(** One turn of [for row in rows] in [get_parking_status];
    [status[slot_type]] raises [KeyError] on a type that is not a key. *)
Definition status_step (st : gmap string TierStatus) (row : SlotRow)
    : outcome (gmap string TierStatus) :=
  match st !! slot_type row with
  | None => Raised (KeyError (slot_type row))
  | Some e =>
      let e1 := mkTierStatus (ts_price e) (ts_slots e ++ [slot_name row])
                             (ts_booked e) in
      let e2 := if is_booked row
                then mkTierStatus (ts_price e1) (ts_slots e1)
                                  (ts_booked e1 ++ [slot_name row])
                else e1 in
      Returned (<[slot_type row := e2]> st)
  end.

Fixpoint status_loop (st : gmap string TierStatus) (rows : list SlotRow)
    : outcome (gmap string TierStatus) :=
  match rows with
  | [] => Returned st
  | row :: rows' =>
      match status_step st row with
      | Returned st' => status_loop st' rows'
      | Raised e => Raised e
      end
  end.

(** [SELECT slot_type, COUNT( * ), SUM(CASE WHEN is_booked ...),
    SUM(CASE WHEN NOT is_booked ...) FROM slots GROUP BY slot_type]: one
    row per slot type in the table. *)
Definition stats_rows (tbl : list SlotRow) : list (string * nat * nat * nat) :=
  (λ ty, let grp := filter (λ s, slot_type s = ty) tbl in
         (ty, length grp,
          length (filter (λ s, is_booked s = true) grp),
          length (filter (λ s, is_booked s = false) grp)))
  <$> remove_dups (slot_type <$> tbl).

Definition slot_info (s : SlotRow) : SlotInfo :=
  mkSlotInfo (slot_name s) (slot_type s) (price s).

(** The dictionary [grouped] of [get_user_bookings] keeps its keys in the
    order they were first inserted. *)
Definition grouped_has (ref : string) (grouped : list (string * Booking)) : Prop :=
  ref ∈ grouped.*1.

Global Instance grouped_has_dec ref grouped : Decision (grouped_has ref grouped).
Proof. unfold grouped_has. apply _. Defined.

(** [grouped[ref]['slots'].append(info)] *)
Definition grouped_append (ref : string) (info : SlotInfo)
    (grouped : list (string * Booking)) : list (string * Booking) :=
  (λ kv : string * Booking,
     if decide (kv.1 = ref)
     then (kv.1, mkBookingView (booking_reference kv.2) (booking_time kv.2)
                   (total_amount kv.2) (status kv.2)
                   (booking_slots kv.2 ++ [info]))
     else kv) <$> grouped.

(** One turn of [for row in bookings]. *)
Definition group_step (grouped : list (string * Booking))
    (row : BookingRow * SlotRow) : list (string * Booking) :=
  let ref := b_booking_reference row.1 in
  let grouped1 :=
    if decide (grouped_has ref grouped) then grouped
    else grouped ++ [(ref, mkBookingView ref (b_booking_time row.1)
                             (b_total_amount row.1) (b_status row.1) [])] in
  grouped_append ref (slot_info row.2) grouped1.

(** [list(grouped.values())] after the loop. *)
Definition group_by_reference (rows : list (BookingRow * SlotRow)) : list Booking :=
  (foldl group_step [] rows).*2.

(** The dictionary built from the rows of one reference. *)
Definition booking_of_rows (rows : list (BookingRow * SlotRow)) : option Booking :=
  match rows with
  | [] => None
  | first :: _ =>
      Some (mkBookingView (b_booking_reference first.1) (b_booking_time first.1)
              (b_total_amount first.1) (b_status first.1)
              ((λ row, slot_info row.2) <$> rows))
  end.

(** ** [database.py] (SQLite) *)

Module database.

(** The list [slots_to_insert] that [populate_slots] builds, in order. *)
Definition slots_to_insert : list (string * string * Z) :=
  ((λ i, ("vip", "V" +:+ str i, 500%Z)) <$> range 1 11)
  ++ (row ← range 1 6;
      (λ col, ("executive", "E" +:+ fmt_02d row +:+ fmt_02d col, 350%Z))
        <$> range 1 21)
  ++ ((λ i, ("normal", "N" +:+ str i, 320%Z)) <$> range 1 12).

Definition populate_slots : Tx unit := executemany insert_slot slots_to_insert.

(** [init_db], as far as [slots] and [bookings] go: the tables are created
    if missing and the catalog is inserted only into an empty [slots]. *)
Definition init_db (connect : option exn) : Tx unit :=
  get_db_connection connect (
    db ← tx_get;
    let count := length (slots db) in
    if decide (count = 0) then populate_slots else mret tt).

(** [get_parking_status]: the rows are fetched inside the [with] block, the
    dictionary is filled after it. *)
Definition get_parking_status (connect : option exn)
    : Tx (gmap string TierStatus) :=
  rows ← get_db_connection connect (
    db ← tx_get;
    mret (merge_sort by_type_id (slots db)));
  match status_loop status_init rows with
  | Returned st => mret st
  | Raised e => tx_raise e
  end.

(** [book_slots(slot_type, slots_to_book, user_id, total_amount)].
    [token] is the value of [secrets.token_hex(8).upper()] and [now] the
    value of [datetime.now()] in this call. *)
Definition book_slots (connect : option exn) (token : string) (now : Z)
    (ty : string) (slots_to_book : list string)
    (user_id : option Z) (amount : Z) : Tx BookResult :=
  if decide (slots_to_book = []) then
    mret (BookFailure "No slots provided")
  else
    let reference := token in
    get_db_connection connect (
      db ← tx_get;
      let already_booked := select_booked_among slots_to_book ty (slots db) in
      if decide (already_booked ≠ []) then
        let booked_names := slot_name <$> already_booked in
        mret (BookFailure ("Slots already booked: " +:+ join ", " booked_names))
      else
        let slot_data := select_among slots_to_book ty (slots db) in
        match slot_data with
        | [] => mret (BookFailure "Invalid slots")
        | first :: _ =>
            let slot_ids := slot_id <$> slot_data in
            let unit_price := price first in
            update_booked slot_ids;;
            let booking_time := now in
            let bookings_to_insert :=
              (λ sid, (sid, user_id, reference, amount, booking_time))
                <$> slot_ids in
            executemany insert_booking bookings_to_insert;;
            mret (BookSuccess
                    ("Successfully booked " +:+ str (length slots_to_book)
                       +:+ " slots")
                    (length slots_to_book) unit_price reference)
        end).

(** [reset_all_bookings] *)
Definition reset_all_bookings (connect : option exn) : Tx ResetResult :=
  get_db_connection connect (
    update_all_free;;
    delete_bookings;;
    mret (mkReset true "All bookings reset" None)).

(** [get_booking_stats] *)
Definition get_booking_stats (connect : option exn)
    : Tx (gmap string TierStats) :=
  get_db_connection connect (
    db ← tx_get;
    mret (foldl (λ stats row,
                   let '(ty, n, b, a) := row in
                   <[ty := mkTierStats n b a]> stats)
                ∅ (stats_rows (slots db)))).

(** [get_user_bookings(user_id)] *)
Definition get_user_bookings (connect : option exn) (user_id : option Z)
    : Tx (list Booking) :=
  get_db_connection connect (
    db ← tx_get;
    let rows :=
      merge_sort time_desc
        (filter (λ row, sql_eq (b_user_id row.1) user_id)
                (join_bookings_slots db)) in
    mret (group_by_reference rows)).

(** [get_booking_by_reference(booking_reference)]: [None] when no row has
    the reference. *)
Definition get_booking_by_reference (connect : option exn) (ref : string)
    : Tx (option Booking) :=
  get_db_connection connect (
    db ← tx_get;
    let rows :=
      filter (λ row, b_booking_reference row.1 = ref)
             (join_bookings_slots db) in
    mret (booking_of_rows rows)).

End database.

(** ** [database_postgres.py] (PostgreSQL) *)

Module database_postgres.

(** [conn.commit()] written inside a [with] block.  In every function
    below nothing after it writes or raises, so the state it commits is the
    state the block ends with. *)
Definition conn_commit : Tx unit := mret tt.

Definition slots_to_insert : list (string * string * Z) :=
  ((λ i, ("vip", "V" +:+ str i, 500%Z)) <$> range 1 11)
  ++ (row ← range 1 6;
      (λ col, ("executive", "E" +:+ fmt_02d row +:+ fmt_02d col, 350%Z))
        <$> range 1 21)
  ++ ((λ i, ("normal", "N" +:+ str i, 320%Z)) <$> range 1 12).

Definition populate_slots : Tx unit := executemany insert_slot slots_to_insert.

Definition init_db (connect : option exn) : Tx unit :=
  get_db_connection connect (
    db ← tx_get;
    let count := length (slots db) in
    (if decide (count = 0) then populate_slots else mret tt);;
    conn_commit).

(** [get_parking_status]: here the rows come [ORDER BY slot_type, slot_name]. *)
Definition get_parking_status (connect : option exn)
    : Tx (gmap string TierStatus) :=
  rows ← get_db_connection connect (
    db ← tx_get;
    mret (merge_sort by_type_name (slots db)));
  match status_loop status_init rows with
  | Returned st => mret st
  | Raised e => tx_raise e
  end.

(** [book_slots]: the booking rows are inserted one [execute] at a time. *)
Definition book_slots (connect : option exn) (token : string) (now : Z)
    (ty : string) (slots_to_book : list string)
    (user_id : option Z) (amount : Z) : Tx BookResult :=
  if decide (slots_to_book = []) then
    mret (BookFailure "No slots provided")
  else
    let reference := token in
    get_db_connection connect (
      db ← tx_get;
      let already_booked := select_booked_among slots_to_book ty (slots db) in
      if decide (already_booked ≠ []) then
        let booked_names := slot_name <$> already_booked in
        mret (BookFailure ("Slots already booked: " +:+ join ", " booked_names))
      else
        let slot_data := select_among slots_to_book ty (slots db) in
        match slot_data with
        | [] => mret (BookFailure "Invalid slots")
        | first :: _ =>
            let slot_ids := slot_id <$> slot_data in
            let unit_price := price first in
            update_booked slot_ids;;
            let booking_time := now in
            for_each slot_ids (λ sid,
              insert_booking (sid, user_id, reference, amount, booking_time));;
            conn_commit;;
            mret (BookSuccess
                    ("Successfully booked " +:+ str (length slots_to_book)
                       +:+ " slots")
                    (length slots_to_book) unit_price reference)
        end).

(** [reset_all_bookings]: the whole [with] block is inside [try]; any
    exception becomes a failure dictionary. *)
Definition reset_all_bookings (connect : option exn) : Tx ResetResult :=
  try_except
    (get_db_connection connect (
       update_all_free;;
       delete_bookings;;
       conn_commit;;
       mret (mkReset true "All bookings reset" None)))
    (λ e, mret (mkReset false ("Failed to reset bookings: " +:+ exn_str e)
                        (Some (exn_str e)))).

(** [x or 0] on an integer. *)
Definition or_0 (x : nat) : nat := if decide (x = 0) then 0 else x.

Definition get_booking_stats (connect : option exn)
    : Tx (gmap string TierStats) :=
  get_db_connection connect (
    db ← tx_get;
    mret (foldl (λ stats row,
                   let '(ty, n, b, a) := row in
                   <[ty := mkTierStats n (or_0 b) (or_0 a)]> stats)
                ∅ (stats_rows (slots db)))).

Definition get_user_bookings (connect : option exn) (user_id : option Z)
    : Tx (list Booking) :=
  get_db_connection connect (
    db ← tx_get;
    let rows :=
      merge_sort time_desc
        (filter (λ row, sql_eq (b_user_id row.1) user_id)
                (join_bookings_slots db)) in
    mret (group_by_reference rows)).

Definition get_booking_by_reference (connect : option exn) (ref : string)
    : Tx (option Booking) :=
  get_db_connection connect (
    db ← tx_get;
    let rows :=
      filter (λ row, b_booking_reference row.1 = ref)
             (join_bookings_slots db) in
    mret (booking_of_rows rows)).

End database_postgres.

(** ** [app.py]: the fee calculator *)

Module app.

(** The breakdown dictionary of [calculate_total_fees]. *)
Record Fees := mkFees {
  base_amount     : Z;
  platform_fee    : Z;
  night_surcharge : Z;
  total_fees      : Z;
  grand_total     : Z;
  is_night_time   : bool
}.

Definition calculate_platform_fee (base_amount : Z) : Z := 18.

(** [is_midnight_to_5am]: [current_hour] is [datetime.now().hour]. *)
Definition is_midnight_to_5am (current_hour : Z) : bool :=
  (0 <=? current_hour)%Z && (current_hour <? 5)%Z.

Definition calculate_night_surcharge (current_hour : Z) (base_amount : Z) : Z :=
  if is_midnight_to_5am current_hour then 12 else 0.

(** [calculate_total_fees]: the clock is read for the surcharge and again
    for the flag; [current_hour] is the hour of the call, which both
    readings show. *)
Definition calculate_total_fees (current_hour : Z) (base_amount : Z) : Fees :=
  let platform_fee := calculate_platform_fee base_amount in
  let night_surcharge := calculate_night_surcharge current_hour base_amount in
  mkFees base_amount platform_fee night_surcharge
         (platform_fee + night_surcharge)
         (base_amount + platform_fee + night_surcharge)
         (is_midnight_to_5am current_hour).

End app.

(** The store after the first start of the application. *)
Definition initial_db : DB := (database.init_db None empty_db).2.

(** ** Vocabulary of the statements *)

(** A number below 100 written with exactly two decimal digits. *)
Definition two_digits_spec (n : nat) : string :=
  String (Ascii.ascii_of_nat (48 + n / 10))
         (String (Ascii.ascii_of_nat (48 + n mod 10)) "").

(** [E{row:2-digit}{col:2-digit}] for row 1..5 and col 1..20, row by row. *)
Definition executive_names_spec : list string :=
  row ← seq 1 5; col ← seq 1 20;
  ["E" +:+ two_digits_spec row +:+ two_digits_spec col].

Definition vip_names_spec : list string :=
  ["V1"; "V2"; "V3"; "V4"; "V5"; "V6"; "V7"; "V8"; "V9"; "V10"].

Definition normal_names_spec : list string :=
  ["N1"; "N2"; "N3"; "N4"; "N5"; "N6"; "N7"; "N8"; "N9"; "N10"; "N11"].

(** What the catalog says of a slot: tier, name, price, occupancy. *)
Definition catalog_entry (s : SlotRow) : string * string * Z * bool :=
  (slot_type s, slot_name s, price s, is_booked s).

Definition of_tier (ty : string) (tbl : list SlotRow) : list SlotRow :=
  filter (λ s, slot_type s = ty) tbl.

Definition unique_reference_error : exn :=
  IntegrityError "UNIQUE constraint failed: bookings.booking_reference".

(** The [slots] table after [UPDATE ... SET is_booked = 1 WHERE id IN ids]. *)
Definition mark_booked (ids : list nat) (tbl : list SlotRow) : list SlotRow :=
  (λ s, if bool_decide (slot_id s ∈ ids) then set_is_booked true s else s)
    <$> tbl.

Definition success_message (n : nat) : string :=
  "Successfully booked " +:+ str n +:+ " slots".

Ltac tx_unfold :=
  unfold get_db_connection, try_except, update_booked, update_all_free,
    delete_bookings, insert_booking, insert_slot,
    mbind, Tx_bind, tx_bind, mret, Tx_ret, tx_ret, tx_raise, tx_get, tx_put.

(** A requested name resolves when [slots] has a row of that name in the
    requested tier; it is occupied when such a row has [is_booked] set. *)
Definition resolves (db : DB) (ty name : string) : Prop :=
  Exists (λ s, slot_name s = name ∧ slot_type s = ty) (slots db).

Definition occupied (db : DB) (ty name : string) : Prop :=
  Exists (λ s, slot_name s = name ∧ slot_type s = ty ∧ is_booked s = true)
         (slots db).

Global Instance resolves_dec db ty name : Decision (resolves db ty name).
Proof. unfold resolves. apply _. Defined.
Global Instance occupied_dec db ty name : Decision (occupied db ty name).
Proof. unfold occupied. apply _. Defined.

(** The booking row [book_slots] writes for a resolved slot. *)
Definition booking_row_for (uid : option Z) (now : Z) (token : string)
    (amt : Z) (s : SlotRow) : BookingRow :=
  mkBooking (slot_id s) uid now token amt "active".

(** The store after booking V1 and then V2, each in a call of its own. *)
Definition db_v1_v2 : DB :=
  (database.book_slots None "5E884898DA280471" 1700000100 "vip" ["V2"]
     (Some 2%Z) 518
     (database.book_slots None "9F86D081884C7D65" 1700000000 "vip" ["V1"]
        (Some 1%Z) 518 initial_db).2).2.

(** A booking row is active when its [status] is ['active']; a slot appears
    in the slot list of a booking row when the row's [slot_id] is its id. *)
Definition actively_booked (db : DB) (s : SlotRow) : Prop :=
  ∃ b, b ∈ bookings db ∧ b_slot_id b = slot_id s ∧ b_status b = "active".

(** The stores reached from the initial catalog by calls of [book_slots]
    and [reset_all_bookings], whatever the arguments and whatever the
    outcome of each call: the successful calls and also the failing ones. *)
Inductive reachable : DB → Prop :=
| reachable_init : reachable initial_db
| reachable_book db connect token now ty req uid amt o db' :
    reachable db →
    database.book_slots connect token now ty req uid amt db = (o, db') →
    reachable db'
| reachable_reset db connect o db' :
    reachable db →
    database.reset_all_bookings connect db = (o, db') →
    reachable db'.

(** The slots of one tier, as the statistics count them. *)
Definition tier_total (ty : string) (tbl : list SlotRow) : nat :=
  length (of_tier ty tbl).

(** The reference of a joined row, and the joined rows of one reference. *)
Definition ref_of (row : BookingRow * SlotRow) : string :=
  b_booking_reference row.1.

Definition rows_of (ref : string) (rows : list (BookingRow * SlotRow))
    : list (BookingRow * SlotRow) :=
  filter (λ row, ref_of row = ref) rows.

(** The joined rows [get_user_bookings] selects for a user, before they are
    ordered. *)
Definition user_rows (db : DB) (user_id : option Z)
    : list (BookingRow * SlotRow) :=
  filter (λ row, sql_eq (b_user_id row.1) user_id) (join_bookings_slots db).


(** [grouped] after the rows [rows] went through the loop: one key per
    reference met, and under each key the booking assembled from all the
    rows of that reference, in the order they came. *)
Definition grouped_ok (grouped : list (string * Booking))
    (rows : list (BookingRow * SlotRow)) : Prop :=
  NoDup grouped.*1
  ∧ (∀ ref, ref ∈ grouped.*1 ↔ ref ∈ ref_of <$> rows)
  ∧ (∀ ref e, (ref, e) ∈ grouped →
       booking_of_rows (rows_of ref rows) = Some e).

(** The entry of [grouped] with one more slot. *)
Definition with_slot (info : SlotInfo) (e : Booking) : Booking :=
  mkBookingView (booking_reference e) (booking_time e) (total_amount e)
                (status e) (booking_slots e ++ [info]).

(** Two tier entries of a status snapshot that differ at most in the order
    of their name lists. *)
Definition same_up_to_order (a b : TierStatus) : Prop :=
  ts_price a = ts_price b
  ∧ ts_slots a ≡ₚ ts_slots b
  ∧ ts_booked a ≡ₚ ts_booked b.

(** The three keys of the status dictionary. *)
Definition known_tier (s : SlotRow) : Prop :=
  slot_type s ∈ ["vip"; "executive"; "normal"].


(** What the loop of [get_parking_status] adds to the entry of tier [ty]
    while it goes through [rows]. *)
Definition status_extend (ty : string) (rows : list SlotRow) (e : TierStatus)
    : TierStatus :=
  mkTierStatus (ts_price e)
    (ts_slots e ++ (slot_name <$> of_tier ty rows))
    (ts_booked e
       ++ (slot_name <$> filter (λ s, is_booked s = true) (of_tier ty rows))).

(** What never changes in a slot: id, tier, name and price. *)
Definition catalog_of (s : SlotRow) : nat * string * string * Z :=
  (slot_id s, slot_type s, slot_name s, price s).

(** What every store reached from the initial catalog satisfies: the slots
    are those of the catalog, occupancy agrees with the booking rows, every
    booking row is active and refers to a slot of the table, and neither a
    slot nor a reference occurs in two booking rows. *)
Definition store_inv (db : DB) : Prop :=
  catalog_of <$> slots db = catalog_of <$> slots initial_db
  ∧ (∀ s, s ∈ slots db → (is_booked s = true ↔ actively_booked db s))
  ∧ Forall (λ b, b_status b = "active") (bookings db)
  ∧ Forall (λ b, b_slot_id b ∈ slot_id <$> slots db) (bookings db)
  ∧ NoDup (b_slot_id <$> bookings db)
  ∧ NoDup (b_booking_reference <$> bookings db).

(** The store after booking V1 alone. *)
Definition db_v1 : DB :=
  (database.book_slots None "9F86D081884C7D65" 1700000000 "vip" ["V1"]
     (Some 1%Z) 518 initial_db).2.

(** ** The users table and [auth.py] *)

(** A row of [users]: [id], [email], [password_hash], [full_name], [phone],
    [user_type], [created_at]. *)
Record UserRow := mkUser {
  u_id            : Z;
  u_email         : string;
  u_password_hash : string;
  u_full_name     : string;
  u_phone         : option string;
  u_user_type     : string;
  u_created_at    : Z
}.

Global Instance UserRow_eq_dec : EqDecision UserRow.
Proof. solve_decision. Defined.

(** The dictionary [get_user_by_id] returns: the row without its
    [password_hash]. *)
Record UserInfo := mkUserInfo {
  ui_id         : Z;
  ui_email      : string;
  ui_full_name  : string;
  ui_phone      : option string;
  ui_user_type  : string;
  ui_created_at : Z
}.

(** The user functions raise what the connection raises and, in
    [create_user], [ValueError]. *)
Inductive user_exn :=
| DatabaseError (e : exn)
| ValueError (msg : string).

Inductive user_outcome (A : Type) :=
| UReturned (a : A)
| URaised (e : user_exn).
Arguments UReturned {A} a.
Arguments URaised {A} e.

(** Code on the [users] table. *)
Definition UTx (A : Type) : Type :=
  list UserRow → user_outcome A * list UserRow.

(** [str(e)] *)
Definition user_exn_str (e : user_exn) : string :=
  match e with
  | DatabaseError e => exn_str e
  | ValueError msg => msg
  end.

(** [get_db_connection] around code on [users]: commit when the body ends
    normally, roll back and raise again when it raises. *)
Definition users_connection {A} (connect : option exn) (body : UTx A) : UTx A :=
  λ users,
  match connect with
  | Some e => (URaised (DatabaseError e), users)
  | None =>
      match body users with
      | (UReturned a, users') => (UReturned a, users')
      | (URaised e, _) => (URaised e, users)
      end
  end.

(** The next [AUTOINCREMENT] id of [users]; no operation deletes a user. *)
Definition next_user_id (users : list UserRow) : Z :=
  (1 + foldr Z.max 0 (u_id <$> users))%Z.

(** [INSERT INTO users (email, password_hash, full_name, phone, user_type)
    VALUES (?, ?, ?, ?, ?)]; [email] is [UNIQUE], [created_at] takes the
    current time [now].  Yields [cursor.lastrowid]. *)
Definition insert_user (now : Z) (email hash full_name : string)
    (phone : option string) (user_type : string)
    : list UserRow → outcome Z * list UserRow :=
  λ users,
  if bool_decide (email ∈ u_email <$> users)
  then (Raised (IntegrityError "UNIQUE constraint failed: users.email"), users)
  else (Returned (next_user_id users),
        users ++ [mkUser (next_user_id users) email hash full_name phone
                         user_type now]).

(** The user functions of [database.py]. *)
Module database_users.

(** [get_user_by_email]: [fetchone] gives the first row of the email. *)
Definition get_user_by_email (connect : option exn) (email : string)
    : UTx (option UserRow) :=
  users_connection connect (λ users,
    (UReturned (head (filter (λ u, u_email u = email) users)), users)).

(** [get_user_by_id] *)
Definition get_user_by_id (connect : option exn) (user_id : Z)
    : UTx (option UserInfo) :=
  users_connection connect (λ users,
    (UReturned
       ((λ u, mkUserInfo (u_id u) (u_email u) (u_full_name u) (u_phone u)
                         (u_user_type u) (u_created_at u))
          <$> head (filter (λ u, u_id u = user_id) users)),
     users)).

(** [create_user]: the [IntegrityError] of the insert is turned into
    [ValueError] inside the [with] block, which then rolls back. *)
Definition create_user (connect : option exn) (now : Z)
    (email password_hash full_name : string) (phone : option string)
    (user_type : string) : UTx Z :=
  users_connection connect (λ users,
    match insert_user now email password_hash full_name phone user_type users
    with
    | (Returned lastrowid, users') => (UReturned lastrowid, users')
    | (Raised (IntegrityError _), users') =>
        (URaised (ValueError "User with this email already exists"), users')
    | (Raised e, users') => (URaised (DatabaseError e), users')
    end).

(** What [init_db] does to [users], after the tables exist: the default
    administrator is created when the table has no row.  [sha256] is
    [hashlib.sha256(...).hexdigest()]. *)
Definition init_db_users (sha256 : string → string) (connect : option exn)
    (now : Z) : UTx unit :=
  users_connection connect (λ users,
    let user_count := length users in
    if decide (user_count = 0) then
      let admin_password := sha256 "admin123" in
      match insert_user now "admin@parkeasy.com" admin_password
              "System Administrator" (Some "9999999999") "admin" users with
      | (Returned _, users') => (UReturned tt, users')
      | (Raised e, users') => (URaised (DatabaseError e), users')
      end
    else (UReturned tt, users)).

End database_users.

(** [auth.py].  [sha256] stands for [_hash_password]. *)
Module auth.

(** [{'success': False, 'message'}] or [{'success': True, 'user'}]. *)
Inductive AuthResult :=
| AuthFailure (message : string)
| AuthSuccess (user : UserRow).

(** [{'success': False, 'message'}] or [{'success': True, 'user_id'}]. *)
Inductive CreateResult :=
| CreateFailure (message : string)
| Created (user_id : Z).

(** [authenticate_user(email, password)] *)
Definition authenticate_user (sha256 : string → string)
    (connect : option exn) (email password : string) : UTx AuthResult :=
  λ users,
  if decide (email = "" ∨ password = "") then
    (UReturned (AuthFailure "Email and password are required"), users)
  else
    let hashed := sha256 password in
    match database_users.get_user_by_email connect email users with
    | (UReturned (Some user), users') =>
        if decide (u_password_hash user = hashed)
        then (UReturned (AuthSuccess user), users')
        else (UReturned (AuthFailure "Invalid email or password"), users')
    | (UReturned None, users') =>
        (UReturned (AuthFailure "Invalid email or password"), users')
    | (URaised e, users') =>
        (UReturned (AuthFailure ("Authentication error: " +:+ user_exn_str e)),
         users')
    end.

(** [create_user(email, password, full_name, phone)]: the row is created
    with the default [user_type='user'] of [database.create_user]. *)
Definition create_user (sha256 : string → string) (connect : option exn)
    (now : Z) (email password full_name : string) (phone : option string)
    : UTx CreateResult :=
  λ users,
  if decide (email = "" ∨ password = "" ∨ full_name = "") then
    (UReturned (CreateFailure "Email, password, and full name are required"),
     users)
  else
    let hashed := sha256 password in
    match database_users.create_user connect now email hashed full_name phone
            "user" users with
    | (UReturned user_id, users') => (UReturned (Created user_id), users')
    | (URaised (ValueError msg), users') =>
        (UReturned (CreateFailure msg), users')
    | (URaised e, users') =>
        (UReturned (CreateFailure ("User creation error: " +:+ user_exn_str e)),
         users')
    end.

(** [get_user_by_id(user_id)]: any exception becomes [None]. *)
Definition get_user_by_id (connect : option exn) (user_id : Z)
    : UTx (option UserInfo) :=
  λ users,
  match database_users.get_user_by_id connect user_id users with
  | (UReturned r, users') => (UReturned r, users')
  | (URaised _, users') => (UReturned None, users')
  end.

End auth.

(** ** The routes of [app.py] that book and reset *)

Module app_routes.

(** What the routes read of the request besides its body. *)
Record Request := mkRequest {
  path             : string;
  x_requested_with : option string;
  accept           : string
}.

(** The store a request works on: the booking tables and [users]. *)
Definition Store : Type := DB * list UserRow.

(** An exception that leaves a route: one of the booking tables, one of the
    user functions, or the [TypeError] of subscripting [None]. *)
Inductive route_exn :=
| StoreError (e : exn)
| UserError (e : user_exn)
| TypeError (msg : string).

(** What a route does: it answers, or an exception leaves it. *)
Inductive route_outcome (A : Type) :=
| Responded (response : A)
| Crashed (e : route_exn).
Arguments Responded {A} response.
Arguments Crashed {A} e.

(** The bodies of [book_slots_route]. *)
Inductive BookBody :=
| LoginRequired (message : string)
| Failed (message : string)
| Booked (message : string) (booked_slots : list string)
         (pricing : app.Fees) (reference : string)
         (user_name user_email : string).

(** [500 if slot_type == 'vip' else 350 if slot_type == 'executive'
    else 320] *)
Definition tier_price (slot_type : string) : Z :=
  if decide (slot_type = "vip") then 500
  else if decide (slot_type = "executive") then 350
  else 320.

(** [book_slots_route]: the body and the HTTP status.  [session_user] is
    [session['user_id']] when the key is present; [slot_type] is
    [data.get('type')] and [slots] is [data.get('slots', [])]; [hour],
    [token] and [now] are what the clock and the random source give during
    the request; [connect] is the connection of [database.book_slots] and
    [connect_auth] the one of [auth.get_user_by_id]. *)
Definition book_slots_route (session_user : option Z)
    (slot_type : option string) (slots : list string)
    (hour : Z) (token : string) (now : Z)
    (connect connect_auth : option exn)
    : Store → route_outcome (BookBody * nat) * Store :=
  λ '(db, users),
  match session_user with
  | None =>
      (Responded (LoginRequired "Please login to book parking slots", 401),
       (db, users))
  | Some user_id =>
      match slot_type with
      | None => (Responded (Failed "Invalid booking data", 200), (db, users))
      | Some ty =>
          if decide (ty = "" ∨ slots = []) then
            (Responded (Failed "Invalid booking data", 200), (db, users))
          else
            let base_price := (Z.of_nat (length slots) * tier_price ty)%Z in
            let fee_breakdown := app.calculate_total_fees hour base_price in
            let total_amount := app.grand_total fee_breakdown in
            match database.book_slots connect token now ty slots
                    (Some user_id) total_amount db with
            | (Raised e, db') => (Crashed (StoreError e), (db', users))
            | (Returned (BookFailure msg), db') =>
                (Responded (Failed msg, 200), (db', users))
            | (Returned (BookSuccess msg _ _ reference), db') =>
                match auth.get_user_by_id connect_auth user_id users with
                | (UReturned (Some user), users') =>
                    (Responded
                       (Booked msg slots fee_breakdown reference
                               (ui_full_name user) (ui_email user), 200),
                     (db', users'))
                | (UReturned None, users') =>
                    (Crashed
                       (TypeError "'NoneType' object is not subscriptable"),
                     (db', users'))
                | (URaised e, users') => (Crashed (UserError e), (db', users'))
                end
            end
      end
  end.

(** [wants_json] of [admin_required] *)
Definition wants_json (req : Request) : bool :=
  String.prefix "/api/" (path req)
  || bool_decide (x_requested_with req = Some "XMLHttpRequest")
  || (match String.index 0 "application/json" (accept req) with
      | Some _ => true
      | None => false
      end).

(** What [admin_required] answers: an error with its status, a redirect to
    the login page, or what the wrapped function answers. *)
Inductive AdminResponse (B : Type) :=
| AuthError (error : string) (status : nat)
| RedirectTo (endpoint : string)
| Passed (response : B).
Arguments AuthError {B} error status.
Arguments RedirectTo {B} endpoint.
Arguments Passed {B} response.

(** [admin_required(f)] *)
Definition admin_required {B} (req : Request) (session_user : option Z)
    (connect_auth : option exn) (f : Tx B)
    : Store → route_outcome (AdminResponse B) * Store :=
  λ '(db, users),
  match session_user with
  | None =>
      if wants_json req
      then (Responded (AuthError "Authentication required" 401), (db, users))
      else (Responded (RedirectTo "admin_login"), (db, users))
  | Some user_id =>
      match auth.get_user_by_id connect_auth user_id users with
      | (UReturned (Some user), users') =>
          if decide (ui_user_type user ∈ ["admin"; "staff"]) then
            match f db with
            | (Returned r, db') => (Responded (Passed r), (db', users'))
            | (Raised e, db') => (Crashed (StoreError e), (db', users'))
            end
          else (Responded (AuthError "Unauthorized access" 403), (db, users'))
      | (UReturned None, users') =>
          (Responded (AuthError "Unauthorized access" 403), (db, users'))
      | (URaised e, users') => (Crashed (UserError e), (db, users'))
      end
  end.

(** The body of [reset_bookings]: the dictionary and the status. *)
Definition reset_bookings_body (connect : option exn) : Tx (ResetResult * nat) :=
  try_except
    (result ← database.reset_all_bookings connect;
     if rr_success result then mret (result, 200) else mret (result, 500))
    (λ e,
       let error_msg := exn_str e in
       mret (mkReset false ("Server error: " +:+ error_msg) (Some error_msg),
             500)).

(** [reset_bookings], the route [/api/reset-bookings] behind
    [admin_required]. *)
Definition reset_bookings (req : Request) (session_user : option Z)
    (connect_auth connect : option exn)
    : Store → route_outcome (AdminResponse (ResetResult * nat)) * Store :=
  admin_required req session_user connect_auth (reset_bookings_body connect).

End app_routes.

(** Closed decidable facts are settled by evaluation. *)
Ltac by_compute := apply (bool_decide_unpack _); vm_compute; exact I.

(** ** The fixed catalog *)

(** C7. Initialising an empty store returns normally and leaves exactly
    the fixed catalog: the ten VIP slots V1..V10 at 500, the hundred
    executive slots E0101..E0520 (row 1..5, column 1..20, two digits each)
    at 350 and the eleven normal slots N1..N11 at 320, in this order and
    nothing else: 121 slots, none occupied, with ids 1..121 and no booking. *)
Theorem init_db_fixed_catalog :
  database.init_db None empty_db = (Returned tt, initial_db)
  ∧ bookings initial_db = []
  ∧ length (slots initial_db) = 121
  ∧ slot_id <$> slots initial_db = seq 1 121
  ∧ catalog_entry <$> of_tier "vip" (slots initial_db)
      = (λ n, ("vip", n, 500%Z, false)) <$> vip_names_spec
  ∧ catalog_entry <$> of_tier "executive" (slots initial_db)
      = (λ n, ("executive", n, 350%Z, false)) <$> executive_names_spec
  ∧ catalog_entry <$> of_tier "normal" (slots initial_db)
      = (λ n, ("normal", n, 320%Z, false)) <$> normal_names_spec
  ∧ length executive_names_spec = 100
  ∧ slots initial_db
      = of_tier "vip" (slots initial_db)
        ++ of_tier "executive" (slots initial_db)
        ++ of_tier "normal" (slots initial_db).
Proof. repeat apply conj; vm_compute; reflexivity. Qed.

(** ** The fee calculator *)


(** ** The booking transaction, case by case *)

Lemma insert_booking_fresh db sid uid ref amt time :
  ref ∉ b_booking_reference <$> bookings db →
  insert_booking (sid, uid, ref, amt, time) db
  = (Returned tt,
     mkDB (slots db) (bookings db ++ [mkBooking sid uid time ref amt "active"])).
Proof.
  intros Hfresh. tx_unfold. simpl.
  by rewrite bool_decide_eq_false_2.
Qed.

Lemma insert_booking_clash db sid uid ref amt time :
  ref ∈ b_booking_reference <$> bookings db →
  insert_booking (sid, uid, ref, amt, time) db
  = (Raised unique_reference_error, db).
Proof.
  intros Hin. tx_unfold. simpl.
  by rewrite bool_decide_eq_true_2.
Qed.

(** Two rows with one reference never both go in: the second insert is
    refused whatever the table held before. *)
Lemma executemany_same_reference_raises db uid ref amt time sid1 sid2 ids :
  (executemany insert_booking
     ((λ sid, (sid, uid, ref, amt, time)) <$> sid1 :: sid2 :: ids) db).1
  = Raised unique_reference_error.
Proof.
  cbn [fmap list_fmap executemany].
  unfold mbind at 1, Tx_bind, tx_bind.
  destruct (decide (ref ∈ b_booking_reference <$> bookings db)) as [Hin|Hout].
  - by rewrite insert_booking_clash.
  - rewrite insert_booking_fresh by done.
    unfold mbind at 1, Tx_bind, tx_bind.
    rewrite insert_booking_clash; [done|].
    simpl. rewrite fmap_app. set_solver.
Qed.

Lemma for_each_executemany {R} (xs : list R) (stmt : R → Tx unit) :
  for_each xs stmt = executemany stmt xs.
Proof. induction xs as [|x xs IH]; simpl; [done|]. by rewrite IH. Qed.

(** What [book_slots] does on an open connection, by the shape of the two
    selections. *)
Lemma book_slots_unfold token now ty req uid amt db :
  database.book_slots None token now ty req uid amt db =
  if decide (req = []) then (Returned (BookFailure "No slots provided"), db)
  else if decide (select_booked_among req ty (slots db) ≠ []) then
    (Returned (BookFailure
       ("Slots already booked: "
          +:+ join ", " (slot_name <$> select_booked_among req ty (slots db)))),
     db)
  else match select_among req ty (slots db) with
       | [] => (Returned (BookFailure "Invalid slots"), db)
       | [s] =>
           if decide (token ∈ b_booking_reference <$> bookings db)
           then (Raised unique_reference_error, db)
           else (Returned (BookSuccess (success_message (length req))
                             (length req) (price s) token),
                 mkDB (mark_booked [slot_id s] (slots db))
                      (bookings db
                         ++ [mkBooking (slot_id s) uid now token amt "active"]))
       | _ :: _ :: _ => (Raised unique_reference_error, db)
       end.
Proof.
  unfold database.book_slots.
  destruct (decide (req = [])) as [|Hne]; [done|].
  unfold get_db_connection.
  unfold mbind at 1, Tx_bind, tx_bind, tx_get.
  cbn [slots bookings].
  destruct (decide (select_booked_among req ty (slots db) ≠ [])); [done|].
  destruct (select_among req ty (slots db)) as [|s [|s' rest]] eqn:Hsel; [done| |].
  - unfold mbind at 1, Tx_bind, tx_bind. unfold update_booked at 1.
    unfold mbind at 1, Tx_bind, tx_bind, tx_get, tx_put.
    unfold mbind at 1, Tx_bind, tx_bind.
    cbn [fmap list_fmap executemany].
    unfold mbind at 1, Tx_bind, tx_bind.
    destruct (decide (token ∈ b_booking_reference <$> bookings db)) as [Hin|Hout].
    + by rewrite insert_booking_clash.
    + by rewrite insert_booking_fresh.
  - unfold mbind at 1, Tx_bind, tx_bind. unfold update_booked at 1.
    unfold mbind at 1, Tx_bind, tx_bind, tx_get, tx_put.
    unfold mbind at 1, Tx_bind, tx_bind.
    pose proof (executemany_same_reference_raises
      (mkDB (mark_booked (slot_id <$> s :: s' :: rest) (slots db)) (bookings db))
      uid token amt now (slot_id s) (slot_id s') (slot_id <$> rest)) as Hraise.
    fold (mark_booked (slot_id <$> s :: s' :: rest) (slots db)).
    cbn [fmap list_fmap] in Hraise |- *.
    destruct (executemany _ _ _) as [[?|e] db']; simpl in Hraise; [done|].
    by inversion Hraise.
Qed.

Lemma book_slots_connect_error e token now ty req uid amt db :
  req ≠ [] →
  database.book_slots (Some e) token now ty req uid amt db = (Raised e, db).
Proof.
  intros Hne. unfold database.book_slots.
  by destruct (decide (req = [])).
Qed.

Lemma elem_of_select_among req ty tbl s :
  s ∈ select_among req ty tbl ↔ (slot_name s ∈ req ∧ slot_type s = ty) ∧ s ∈ tbl.
Proof. unfold select_among. by rewrite list_elem_of_filter. Qed.

Lemma elem_of_select_booked_among req ty tbl s :
  s ∈ select_booked_among req ty tbl
  ↔ (slot_name s ∈ req ∧ slot_type s = ty ∧ is_booked s = true) ∧ s ∈ tbl.
Proof. unfold select_booked_among. by rewrite list_elem_of_filter. Qed.



(** ** One reference, several rows *)

(** C1, at the failing input.  On the freshly initialised store, V1 and V2
    are two distinct free VIP slots, yet booking them in one call does not
    return: the second booking row carries the reference of the first, the
    [UNIQUE] column refuses it, the connection rolls back and the
    [IntegrityError] leaves [book_slots]; no row is persisted and both slots
    stay free. *)
Theorem book_slots_two_free_slots_raise :
  catalog_entry <$> select_among ["V1"; "V2"] "vip" (slots initial_db)
    = [("vip", "V1", 500%Z, false); ("vip", "V2", 500%Z, false)]
  ∧ database.book_slots None "9F86D081884C7D65" 1700000000 "vip"
      ["V1"; "V2"] (Some 1%Z) 1018 initial_db
    = (Raised unique_reference_error, initial_db).
Proof. split; vm_compute; reflexivity. Qed.

(** The same on every store: as soon as the request resolves to two or more
    free rows the call raises and nothing is changed. *)
Lemma book_slots_several_rows_raise token now ty req uid amt db :
  select_booked_among req ty (slots db) = [] →
  2 ≤ length (select_among req ty (slots db)) →
  database.book_slots None token now ty req uid amt db
  = (Raised unique_reference_error, db).
Proof.
  intros Hfree Hlen. rewrite book_slots_unfold.
  destruct (decide (req = [])) as [->|Hne].
  { assert (select_among [] ty (slots db) = []) as Hnil.
    { apply elem_of_nil_inv. intros s Hs.
      apply elem_of_select_among in Hs as [[Hreq _] _].
      by apply not_elem_of_nil in Hreq. }
    rewrite Hnil in Hlen. simpl in Hlen. lia. }
  rewrite Hfree. destruct (decide ([] ≠ [])) as [|_]; [done|].
  destruct (select_among req ty (slots db)) as [|s [|s' rest]];
    simpl in Hlen; [lia|lia|done].
Qed.

(** ** Requests with names that do not resolve *)




(** A call that returns a success dictionary ran on an open connection,
    found no requested slot occupied, resolved exactly one row and used a
    reference not yet in [bookings]; the store it leaves has that row marked
    and one booking row appended. *)
Lemma book_slots_success_inv connect token now ty req uid amt db m c p r db' :
  database.book_slots connect token now ty req uid amt db
    = (Returned (BookSuccess m c p r), db') →
  connect = None ∧ req ≠ []
  ∧ select_booked_among req ty (slots db) = []
  ∧ (token ∉ b_booking_reference <$> bookings db)
  ∧ ∃ s, select_among req ty (slots db) = [s]
      ∧ m = success_message (length req) ∧ c = length req
      ∧ p = price s ∧ r = token
      ∧ db' = mkDB (mark_booked [slot_id s] (slots db))
                   (bookings db ++ [booking_row_for uid now token amt s]).
Proof.
  intros Hbook.
  destruct (decide (req = [])) as [->|Hne].
  { unfold database.book_slots in Hbook. simpl in Hbook. discriminate. }
  destruct connect as [e|].
  { rewrite book_slots_connect_error in Hbook by done. discriminate. }
  rewrite book_slots_unfold in Hbook.
  destruct (decide (req = [])); [done|].
  destruct (decide (select_booked_among req ty (slots db) ≠ [])) as [|Hfree];
    [discriminate|].
  apply dec_stable in Hfree.
  destruct (select_among req ty (slots db)) as [|s [|s' rest]];
    [discriminate| |discriminate].
  destruct (decide (token ∈ b_booking_reference <$> bookings db));
    [discriminate|].
  inversion Hbook; subst. eauto 12.
Qed.

(** Every other outcome, a failure dictionary or an exception, leaves the
    store as it was. *)
Lemma book_slots_no_success_unchanged connect token now ty req uid amt db o db' :
  database.book_slots connect token now ty req uid amt db = (o, db') →
  (∀ m c p r, o ≠ Returned (BookSuccess m c p r)) →
  db' = db.
Proof.
  intros Hbook Hfail.
  destruct (decide (req = [])) as [->|Hne].
  { unfold database.book_slots in Hbook. simpl in Hbook. by inversion Hbook. }
  destruct connect as [e|].
  { rewrite book_slots_connect_error in Hbook by done. by inversion Hbook. }
  rewrite book_slots_unfold in Hbook.
  destruct (decide (req = [])); [done|].
  destruct (decide (select_booked_among req ty (slots db) ≠ []));
    [by inversion Hbook|].
  destruct (select_among req ty (slots db)) as [|s [|s' rest]];
    try (by inversion Hbook).
  destruct (decide (token ∈ b_booking_reference <$> bookings db));
    inversion Hbook; subst; [done|].
  by edestruct Hfail.
Qed.

(** ** Requests for occupied slots *)



(** On that store the message reads "Slots already booked: V1, V2". *)
Example book_slots_conflict_message :
  (database.book_slots None "2C26B46B68FFC68F" 1700000200 "vip"
     ["V1"; "V2"; "V3"] (Some 3%Z) 1518 db_v1_v2).1
  = Returned (BookFailure "Slots already booked: V1, V2").
Proof. vm_compute. reflexivity. Qed.

(** ** Requests with repeated names *)



(** A request that resolves to one free row succeeds when the reference is
    new. *)
Lemma book_slots_single_row_succeeds token now ty req uid amt db s :
  select_among req ty (slots db) = [s] →
  is_booked s = false →
  token ∉ b_booking_reference <$> bookings db →
  database.book_slots None token now ty req uid amt db
  = (Returned (BookSuccess (success_message (length req)) (length req)
                 (price s) token),
     mkDB (mark_booked [slot_id s] (slots db))
          (bookings db ++ [booking_row_for uid now token amt s])).
Proof.
  intros Hsel Hfree Hfresh. rewrite book_slots_unfold.
  destruct (decide (req = [])) as [->|_].
  { assert (s ∈ select_among [] ty (slots db)) as Hs
      by (rewrite Hsel; apply list_elem_of_here).
    apply elem_of_select_among in Hs as [[Hs _] _].
    by apply not_elem_of_nil in Hs. }
  destruct (decide (select_booked_among req ty (slots db) ≠ [])) as [Hocc|_].
  { exfalso. apply Hocc. apply elem_of_nil_inv. intros s' Hs'.
    apply elem_of_select_booked_among in Hs' as [(Hreq & Hty & Hb) Hin].
    assert (s' ∈ select_among req ty (slots db)) as Hs'
      by (apply elem_of_select_among; eauto).
    rewrite Hsel in Hs'. apply list_elem_of_singleton in Hs' as ->.
    congruence. }
  rewrite Hsel. by destruct (decide (token ∈ _)).
Qed.

(** ** Reset *)

Lemma reset_all_bookings_open db :
  database.reset_all_bookings None db
  = (Returned (mkReset true "All bookings reset" None),
     mkDB (set_is_booked false <$> slots db) []).
Proof. reflexivity. Qed.

Lemma reset_all_bookings_connect_error e db :
  database.reset_all_bookings (Some e) db = (Raised e, db).
Proof. reflexivity. Qed.

(** ** Occupancy and booking rows agree *)

Lemma mark_booked_elem ids tbl s' :
  s' ∈ mark_booked ids tbl →
  ∃ s, s ∈ tbl ∧ slot_id s' = slot_id s
       ∧ (slot_id s ∈ ids ∧ is_booked s' = true
          ∨ (slot_id s ∉ ids) ∧ s' = s).
Proof.
  unfold mark_booked. rewrite list_elem_of_fmap. intros (s & -> & Hin).
  exists s. split; [done|]. case_bool_decide; simpl; eauto.
Qed.

(** C5. In every store reached from the initial catalog by calls of
    [book_slots] and [reset_all_bookings], a slot has [is_booked] set if and
    only if some active booking row refers to it. *)
Theorem occupied_iff_actively_booked db :
  reachable db →
  ∀ s, s ∈ slots db → (is_booked s = true ↔ actively_booked db s).
Proof.
  induction 1 as [|db connect token now ty req uid amt o db' Hreach IH Hbook
                  |db connect o db' Hreach IH Hreset].
  - intros s Hs.
    assert (Hfree : Forall (λ s, is_booked s = false) (slots initial_db))
      by by_compute.
    rewrite Forall_forall in Hfree. rewrite (Hfree s Hs).
    assert (Hnil : bookings initial_db = []) by (vm_compute; reflexivity).
    unfold actively_booked. rewrite Hnil.
    split; [discriminate|]. intros (b & Hb & _).
    exfalso. exact (not_elem_of_nil b Hb).
  - assert (Hsame : (∀ m c p r, o ≠ Returned (BookSuccess m c p r)) → db' = db)
      by (by eapply book_slots_no_success_unchanged).
    destruct o as [[msg|m c p r]|e];
      [rewrite Hsame; [done|discriminate]| |rewrite Hsame; [done|discriminate]].
    apply book_slots_success_inv in Hbook
        as (_ & _ & _ & _ & s0 & _ & _ & _ & _ & _ & ->).
      intros s' Hs'. cbn [slots] in Hs'.
      apply mark_booked_elem in Hs' as (s & Hs & Hid & Hcase).
      unfold actively_booked. cbn [bookings]. rewrite Hid.
      destruct Hcase as [[Hin ->]|[Hout ->]].
      * split; [intros _|done].
        apply list_elem_of_singleton in Hin.
        exists (booking_row_for uid now token amt s0).
        split; [apply elem_of_app; right; apply list_elem_of_here|].
        by rewrite Hin.
      * rewrite (IH s Hs). unfold actively_booked.
        split; intros (b & Hb & Hbid & Hst).
        -- exists b. split; [apply elem_of_app; by left|done].
        -- apply elem_of_app in Hb as [Hb|Hb]; [by eauto|].
           apply list_elem_of_singleton in Hb as ->.
           exfalso. apply Hout. simpl in Hbid. rewrite Hbid.
           apply list_elem_of_here.
  - destruct connect as [e|].
    + rewrite reset_all_bookings_connect_error in Hreset.
      by inversion Hreset; subst.
    + rewrite reset_all_bookings_open in Hreset. inversion Hreset; subst.
      intros s Hs. cbn [slots] in Hs.
      apply list_elem_of_fmap in Hs as (s1 & -> & _).
      split; [done|]. intros (b & Hb & _). cbn [bookings] in Hb.
      by apply not_elem_of_nil in Hb.
Qed.

Lemma reachable_db_v1_v2 : reachable db_v1_v2.
Proof.
  unfold db_v1_v2.
  eapply reachable_book; [|apply surjective_pairing].
  eapply reachable_book; [|apply surjective_pairing].
  apply reachable_init.
Defined.

Lemma occupied_iff_actively_booked_witness :
  reachable db_v1_v2
  ∧ Forall (λ s, is_booked s = true ↔ actively_booked db_v1_v2 s)
           (slots db_v1_v2).
Proof.
  split; [apply reachable_db_v1_v2|].
  apply Forall_forall.
  apply occupied_iff_actively_booked, reachable_db_v1_v2.
Defined.

(** ** Statistics *)

Section foldl_insert.
Context {R V : Type} (f : gmap string V → R → gmap string V).
Context (key : R → string) (val : R → V).
Hypothesis f_insert : ∀ m r, f m r = <[key r := val r]> m.

Lemma foldl_insert_lookup l acc k v :
  foldl f acc l !! k = Some v →
  acc !! k = Some v ∨ ∃ r, r ∈ l ∧ key r = k ∧ v = val r.
Proof using f_insert.
  revert acc. induction l as [|r l IH]; intros acc Hlook; simpl in Hlook.
  - by left.
  - apply IH in Hlook as [Hacc|(r' & Hin & Hk & Hv)].
    + rewrite f_insert in Hacc.
      destruct (decide (key r = k)) as [Heq|Hne].
      * rewrite Heq, lookup_insert_eq in Hacc. inversion Hacc.
        right. exists r. split; [apply elem_of_cons; by left|done].
      * rewrite lookup_insert_ne in Hacc by done. by left.
    + right. exists r'. split; [apply elem_of_cons; by right|done].
Qed.

Lemma foldl_insert_is_Some l acc k :
  is_Some (acc !! k) ∨ (∃ r, r ∈ l ∧ key r = k) →
  is_Some (foldl f acc l !! k).
Proof using f_insert.
  revert acc. induction l as [|r l IH]; intros acc Hk; simpl.
  - destruct Hk as [Hk|(r & Hr & _)]; [done|].
    by apply not_elem_of_nil in Hr.
  - apply IH. rewrite f_insert.
    destruct (decide (key r = k)) as [Heq|Hne].
    + left. rewrite Heq, lookup_insert_eq. by eexists.
    + rewrite lookup_insert_ne by done.
      destruct Hk as [Hk|(r' & Hr' & Hkey)]; [by left|].
      apply elem_of_cons in Hr' as [->|Hr']; [done|].
      right. eauto.
Qed.
End foldl_insert.

Lemma elem_of_stats_rows tbl ty n b a :
  (ty, n, b, a) ∈ stats_rows tbl ↔
  ty ∈ slot_type <$> tbl
  ∧ n = length (of_tier ty tbl)
  ∧ b = length (filter (λ s, is_booked s = true) (of_tier ty tbl))
  ∧ a = length (filter (λ s, is_booked s = false) (of_tier ty tbl)).
Proof.
  unfold stats_rows, of_tier. rewrite list_elem_of_fmap. split.
  - intros (ty' & Heq & Hin). inversion Heq; subst.
    rewrite elem_of_remove_dups in Hin. by repeat split.
  - intros (Hin & -> & -> & ->). exists ty.
    split; [done|]. by rewrite elem_of_remove_dups.
Qed.

Lemma get_booking_stats_open db :
  ∃ stats,
    database.get_booking_stats None db = (Returned stats, db)
    ∧ (∀ ty, ty ∈ slot_type <$> slots db → is_Some (stats !! ty))
    ∧ (∀ ty e, stats !! ty = Some e →
         ty ∈ slot_type <$> slots db
         ∧ e = mkTierStats
                 (length (of_tier ty (slots db)))
                 (length (filter (λ s, is_booked s = true) (of_tier ty (slots db))))
                 (length (filter (λ s, is_booked s = false) (of_tier ty (slots db))))).
Proof.
  eexists. split; [reflexivity|].
  set (key := λ row : string * nat * nat * nat, row.1.1.1).
  set (val := λ row : string * nat * nat * nat,
                mkTierStats row.1.1.2 row.1.2 row.2).
  set (f := λ (stats : gmap string TierStats) (row : string * nat * nat * nat),
              let '(ty, n, b, a) := row in <[ty := mkTierStats n b a]> stats).
  assert (Hf : ∀ m r, f m r = <[key r := val r]> m) by (by intros m [[[??]?]?]).
  split.
  - intros ty Hty.
    apply (foldl_insert_is_Some f key val Hf).
    right.
    exists (ty, length (of_tier ty (slots db)),
            length (filter (λ s, is_booked s = true) (of_tier ty (slots db))),
            length (filter (λ s, is_booked s = false) (of_tier ty (slots db)))).
    split; [by apply elem_of_stats_rows|done].
  - intros ty e Hlook.
    apply (foldl_insert_lookup f key val Hf) in Hlook
      as [Hempty|([[[ty' n] b] a] & Hin & Hkey & ->)].
    + by rewrite lookup_empty in Hempty.
    + apply elem_of_stats_rows in Hin as (Hty & -> & -> & ->).
      unfold key in Hkey; simpl in Hkey; subst ty'. done.
Qed.

Lemma of_tier_reset ty tbl :
  of_tier ty (set_is_booked false <$> tbl)
  = set_is_booked false <$> of_tier ty tbl.
Proof.
  unfold of_tier. induction tbl as [|s tbl IH]; [done|].
  rewrite fmap_cons, !filter_cons. simpl.
  destruct (decide (slot_type s = ty)); by rewrite IH.
Qed.

Lemma filter_booked_reset (l : list SlotRow) :
  filter (λ s, is_booked s = true) (set_is_booked false <$> l) = []
  ∧ filter (λ s, is_booked s = false) (set_is_booked false <$> l)
    = set_is_booked false <$> l.
Proof.
  induction l as [|s l [IH1 IH2]]; [done|].
  rewrite fmap_cons, !filter_cons. simpl.
  destruct (decide (false = true)); [done|].
  destruct (decide (false = false)); [|done].
  by rewrite IH1, IH2.
Qed.

(** C6. On every store, [reset_all_bookings] returns its success
    dictionary and leaves no booking row, and [get_booking_stats] called
    next returns statistics in which every tier has [booked = 0] and
    [available = total]; every tier of the catalog is present, with the
    number of its slots as total. *)
Theorem reset_then_stats db :
  ∃ db' stats,
    database.reset_all_bookings None db
      = (Returned (mkReset true "All bookings reset" None), db')
    ∧ bookings db' = []
    ∧ database.get_booking_stats None db' = (Returned stats, db')
    ∧ (∀ ty e, stats !! ty = Some e →
         st_booked e = 0 ∧ st_available e = st_total e)
    ∧ (∀ s, s ∈ slots db →
         stats !! slot_type s
         = Some (mkTierStats (tier_total (slot_type s) (slots db)) 0
                             (tier_total (slot_type s) (slots db)))).
Proof.
  destruct (get_booking_stats_open (mkDB (set_is_booked false <$> slots db) []))
    as (stats & Hstats & Hdom & Hval).
  exists (mkDB (set_is_booked false <$> slots db) []), stats.
  split; [apply reset_all_bookings_open|].
  split; [done|]. split; [done|].
  cbn [slots] in Hdom, Hval.
  assert (Hshape : ∀ ty e, stats !! ty = Some e →
            e = mkTierStats (tier_total ty (slots db)) 0
                            (tier_total ty (slots db))).
  { intros ty e Hlook. apply Hval in Hlook as [_ ->].
    rewrite of_tier_reset.
    destruct (filter_booked_reset (of_tier ty (slots db))) as [-> ->].
    unfold tier_total. by rewrite length_fmap. }
  split.
  - intros ty e Hlook. by rewrite (Hshape _ _ Hlook).
  - intros s Hs.
    destruct (Hdom (slot_type s)) as [e He].
    { rewrite <- list_fmap_compose. apply list_elem_of_fmap.
      exists s. by split. }
    rewrite He. f_equal. by apply Hshape.
Qed.

(** ** Grouping booking rows by reference *)

Lemma grouped_append_fst ref info grouped :
  (grouped_append ref info grouped).*1 = grouped.*1.
Proof.
  unfold grouped_append. rewrite <- list_fmap_compose.
  apply list_fmap_ext. intros i [k e] _. simpl. by case_decide.
Qed.


Lemma grouped_append_absent ref info grouped :
  ref ∉ grouped.*1 → grouped_append ref info grouped = grouped.
Proof.
  intros Hout. unfold grouped_append.
  induction grouped as [|[k e] grouped IH]; [done|].
  rewrite fmap_cons in Hout. apply not_elem_of_cons in Hout as [Hne Hout].
  rewrite fmap_cons, IH by done. simpl in *.
  by destruct (decide (k = ref)).
Qed.

Lemma elem_of_grouped_append ref info grouped k e' :
  (k, e') ∈ grouped_append ref info grouped →
  ∃ e, (k, e) ∈ grouped
       ∧ (k = ref ∧ e' = with_slot info e ∨ k ≠ ref ∧ e' = e).
Proof.
  unfold grouped_append. rewrite list_elem_of_fmap.
  intros ([k0 e] & Heq & Hin). simpl in Heq.
  destruct (decide (k0 = ref)) as [->|Hne]; inversion Heq; subst; eauto.
Qed.

Lemma booking_of_rows_snoc rows row e :
  booking_of_rows rows = Some e →
  booking_of_rows (rows ++ [row]) = Some (with_slot (slot_info row.2) e).
Proof.
  destruct rows as [|first rows]; [done|].
  simpl. intros Heq. inversion Heq; subst.
  unfold with_slot. simpl. by rewrite fmap_app.
Qed.

Lemma rows_of_snoc ref rows row :
  rows_of ref (rows ++ [row])
  = rows_of ref rows ++ (if decide (ref_of row = ref) then [row] else []).
Proof.
  unfold rows_of. rewrite filter_app. f_equal.
Qed.

Lemma rows_of_absent ref rows :
  ref ∉ ref_of <$> rows → rows_of ref rows = [].
Proof.
  intros Hout. apply elem_of_nil_inv. intros row Hrow.
  unfold rows_of in Hrow. rewrite list_elem_of_filter in Hrow.
  destruct Hrow as [Href Hin]. apply Hout. rewrite <- Href.
  by apply list_elem_of_fmap_2.
Qed.

Lemma group_step_known grouped row :
  ref_of row ∈ grouped.*1 →
  group_step grouped row
  = grouped_append (ref_of row) (slot_info row.2) grouped.
Proof.
  intros Hin. unfold group_step. fold (ref_of row).
  by destruct (decide (grouped_has (ref_of row) grouped)).
Qed.

Lemma group_step_new grouped row :
  ref_of row ∉ grouped.*1 →
  group_step grouped row
  = grouped
    ++ [(ref_of row,
         mkBookingView (ref_of row) (b_booking_time row.1)
           (b_total_amount row.1) (b_status row.1) [slot_info row.2])].
Proof.
  intros Hout. unfold group_step. fold (ref_of row).
  destruct (decide (grouped_has (ref_of row) grouped)) as [Hin|_]; [done|].
  unfold grouped_append at 1. rewrite fmap_app.
  fold (grouped_append (ref_of row) (slot_info row.2) grouped).
  rewrite grouped_append_absent by done.
  simpl. by destruct (decide (ref_of row = ref_of row)).
Qed.

Lemma group_fold_ok rows : grouped_ok (foldl group_step [] rows) rows.
Proof.
  induction rows as [|row rows IH] using rev_ind.
  { split; [constructor|]. split; [done|].
    intros ref e Hin. by apply not_elem_of_nil in Hin. }
  rewrite foldl_snoc.
  destruct IH as (Hnd & Hkeys & Hent).
  set (grouped := foldl group_step [] rows) in *.
  destruct (decide (ref_of row ∈ grouped.*1)) as [Hin|Hout].
  - rewrite group_step_known by done.
    split; [by rewrite grouped_append_fst|].
    split.
    + intros ref. rewrite grouped_append_fst, fmap_app, elem_of_app, <- Hkeys.
      simpl. rewrite list_elem_of_singleton.
      split; [by left|]. by intros [?| ->].
    + intros k e' He'.
      apply elem_of_grouped_append in He' as (e & He & Hcase).
      rewrite rows_of_snoc. apply Hent in He.
      destruct Hcase as [[-> ->]|[Hne ->]].
      * destruct (decide (ref_of row = ref_of row)); [|done].
        by apply booking_of_rows_snoc.
      * destruct (decide (ref_of row = k)); [by subst|].
        by rewrite app_nil_r.
  - rewrite group_step_new by done.
    split.
    { rewrite fmap_app. apply NoDup_app. split; [done|].
      split; [|apply NoDup_singleton].
      intros k Hk Hk'. simpl in Hk'. apply list_elem_of_singleton in Hk'.
      by subst. }
    split.
    + intros ref. rewrite !fmap_app, !elem_of_app, Hkeys. done.
    + intros k e' He'. rewrite rows_of_snoc.
      apply elem_of_app in He' as [He'|He'].
      * assert (k ≠ ref_of row) as Hne.
        { intros ->. apply Hout. apply list_elem_of_fmap.
          exists (ref_of row, e'). by split. }
        destruct (decide (ref_of row = k)); [by subst|].
        rewrite app_nil_r. by apply Hent.
      * apply list_elem_of_singleton in He'. inversion He'; subst.
        destruct (decide (ref_of row = ref_of row)); [|done].
        rewrite rows_of_absent; [done|]. by rewrite <- Hkeys.
Qed.

Lemma booking_of_rows_first rows e :
  booking_of_rows rows = Some e →
  ∃ first rest, rows = first :: rest
    ∧ booking_reference e = ref_of first
    ∧ booking_time e = b_booking_time first.1
    ∧ total_amount e = b_total_amount first.1
    ∧ status e = b_status first.1
    ∧ booking_slots e = (λ row, slot_info row.2) <$> rows.
Proof.
  destruct rows as [|first rest]; [done|].
  simpl. intros Heq. inversion Heq; subst. simpl. eauto 10.
Qed.


Global Instance time_desc_trans : Transitive time_desc.
Proof. intros x y z. unfold time_desc. lia. Qed.

Global Instance time_desc_total : Total time_desc.
Proof. intros x y. unfold time_desc. lia. Qed.


(** ** Bookings of a user *)


(** A store with two bookings of user 1 and one of user 2: the newer
    booking of user 1 comes first. *)
Example get_user_bookings_example :
  (database.get_user_bookings None (Some 1%Z)
     (database.book_slots None "7C4A8D09CA3762AF" 1700000300 "normal" ["N3"]
        (Some 1%Z) 338
        (database.book_slots None "5E884898DA280471" 1700000100 "vip" ["V2"]
           (Some 2%Z) 518
           (database.book_slots None "9F86D081884C7D65" 1700000000 "vip"
              ["V1"] (Some 1%Z) 518 initial_db).2).2).2).1
  = Returned
      [mkBookingView "7C4A8D09CA3762AF" 1700000300 338 "active"
         [mkSlotInfo "N3" "normal" 320];
       mkBookingView "9F86D081884C7D65" 1700000000 518 "active"
         [mkSlotInfo "V1" "vip" 500]].
Proof. vm_compute. reflexivity. Qed.

(** ** The status snapshot *)

Lemma status_extend_nil ty e : status_extend ty [] e = e.
Proof. destruct e. unfold status_extend. simpl. by rewrite !app_nil_r. Qed.

Lemma status_loop_spec rows st :
  (∀ s, s ∈ rows → is_Some (st !! slot_type s)) →
  ∃ st', status_loop st rows = Returned st'
         ∧ ∀ ty, st' !! ty = status_extend ty rows <$> st !! ty.
Proof.
  revert st. induction rows as [|row rows IH]; intros st Hkeys.
  { exists st. split; [done|]. intros ty.
    destruct (st !! ty) as [e|]; simpl; [|done].
    by rewrite status_extend_nil. }
  destruct (Hkeys row) as [e He]; [apply elem_of_cons; by left|].
  simpl. unfold status_step. rewrite He.
  match goal with
  | |- context [status_loop (<[_ := ?e2]> st) rows] => set (entry := e2)
  end.
  destruct (IH (<[slot_type row := entry]> st)) as (st' & Hloop & Hst').
  { intros s Hs. destruct (decide (slot_type row = slot_type s)) as [<-|Hne].
    - rewrite lookup_insert_eq. by eexists.
    - rewrite lookup_insert_ne by done. apply Hkeys, elem_of_cons. by right. }
  exists st'. split; [done|].
  intros ty. rewrite Hst'.
  destruct (decide (slot_type row = ty)) as [<-|Hne].
  - rewrite lookup_insert_eq, He. simpl. f_equal.
    unfold status_extend, of_tier. rewrite !filter_cons.
    destruct (decide (slot_type row = slot_type row)); [|done].
    rewrite filter_cons. subst entry.
    destruct (is_booked row) eqn:Hb; simpl.
    + destruct (decide (true = true)); [|done].
      simpl. by rewrite <- !app_assoc.
    + destruct (decide (false = true)); [done|].
      simpl. by rewrite <- !app_assoc.
  - rewrite lookup_insert_ne by done.
    destruct (st !! ty) as [e0|]; simpl; [|done]. f_equal.
    unfold status_extend, of_tier. rewrite filter_cons.
    by destruct (decide (slot_type row = ty)).
Qed.

Lemma status_init_known s : known_tier s → is_Some (status_init !! slot_type s).
Proof.
  unfold known_tier. rewrite !elem_of_cons.
  intros [->|[->|[->|Hnil]]]; [by eexists..|].
  by apply not_elem_of_nil in Hnil.
Qed.

Lemma status_of_rows rows tbl :
  rows ≡ₚ tbl →
  (∀ s, s ∈ tbl → known_tier s) →
  ∃ st, status_loop status_init rows = Returned st
        ∧ ∀ ty, option_Forall2 same_up_to_order
                  (st !! ty) (status_extend ty tbl <$> status_init !! ty).
Proof.
  intros Hperm Hknown.
  destruct (status_loop_spec rows status_init) as (st & Hloop & Hst).
  { intros s Hs. apply status_init_known, Hknown. by rewrite <- Hperm. }
  exists st. split; [done|]. intros ty. rewrite Hst.
  destruct (status_init !! ty) as [e|]; simpl; constructor.
  unfold same_up_to_order, status_extend, of_tier. simpl.
  split; [done|]. by rewrite Hperm.
Qed.

Global Instance same_up_to_order_sym : Symmetric same_up_to_order.
Proof. intros a b (? & ? & ?). by split. Qed.

Global Instance same_up_to_order_trans : Transitive same_up_to_order.
Proof.
  intros a b c (? & ? & ?) (? & ? & ?).
  split; [congruence|]. split; by etrans.
Qed.

(** ** The two storage modules side by side *)

Lemma or_0_id x : database_postgres.or_0 x = x.
Proof. unfold database_postgres.or_0. by case_decide. Qed.

Lemma foldl_pointwise {A B} (f g : A → B → A) (l : list B) (a : A) :
  (∀ a b, f a b = g a b) → foldl f a l = foldl g a l.
Proof.
  intros Hfg. revert a. induction l as [|b l IH]; intros a; [done|].
  simpl. by rewrite Hfg, IH.
Qed.

Lemma book_slots_same connect token now ty req uid amt db :
  database.book_slots connect token now ty req uid amt db
  = database_postgres.book_slots connect token now ty req uid amt db.
Proof.
  unfold database.book_slots, database_postgres.book_slots.
  destruct (decide (req = [])); [done|].
  destruct connect as [e|]; [done|].
  unfold get_db_connection, mbind, Tx_bind, tx_bind, tx_get, mret, Tx_ret,
    tx_ret, update_booked, tx_put, database_postgres.conn_commit.
  unfold mbind, Tx_bind, tx_bind, tx_get, tx_put.
  destruct (decide (select_booked_among req ty (slots db) ≠ [])); [done|].
  destruct (select_among req ty (slots db)) as [|first rest]; [done|].
  rewrite for_each_executemany.
  assert (Hmap : ∀ (ids : list nat) d,
    executemany (λ sid : nat, insert_booking (sid, uid, token, amt, now))
      ids d
    = executemany insert_booking
        ((λ sid : nat, (sid, uid, token, amt, now)) <$> ids) d).
  { induction ids as [|sid ids IH]; intros d; [done|].
    simpl. unfold mbind, Tx_bind, tx_bind.
    destruct (insert_booking _ d) as [[[]|e] d1]; [|done]. apply IH. }
  rewrite Hmap.
  destruct (executemany insert_booking _ _) as [[[]|e] db2]; [|done].
  reflexivity.
Qed.

Lemma get_booking_stats_same connect db :
  database.get_booking_stats connect db
  = database_postgres.get_booking_stats connect db.
Proof.
  unfold database.get_booking_stats, database_postgres.get_booking_stats.
  unfold get_db_connection. destruct connect as [e|]; [done|].
  unfold mbind, Tx_bind, tx_bind, tx_get, mret, Tx_ret, tx_ret.
  do 2 f_equal. apply foldl_pointwise.
  intros m [[[ty n] b] a]. by rewrite !or_0_id.
Qed.




(** Both modules start from the same catalog. *)
Lemma init_db_same :
  database_postgres.init_db None empty_db = database.init_db None empty_db.
Proof. vm_compute. reflexivity. Qed.

(** ** What the reachable stores keep *)

Lemma catalog_of_mark_booked ids tbl :
  catalog_of <$> mark_booked ids tbl = catalog_of <$> tbl.
Proof.
  unfold mark_booked. rewrite <- list_fmap_compose.
  apply list_fmap_ext. intros i s _. simpl. by case_bool_decide.
Qed.

Lemma catalog_of_reset (tbl : list SlotRow) :
  catalog_of <$> (set_is_booked false <$> tbl) = catalog_of <$> tbl.
Proof. rewrite <- list_fmap_compose. by apply list_fmap_ext. Qed.

Lemma slot_id_mark_booked ids tbl :
  slot_id <$> mark_booked ids tbl = slot_id <$> tbl.
Proof.
  unfold mark_booked. rewrite <- list_fmap_compose.
  apply list_fmap_ext. intros i s _. simpl. by case_bool_decide.
Qed.

Lemma select_among_free req ty tbl s :
  select_booked_among req ty tbl = [] →
  s ∈ select_among req ty tbl →
  is_booked s = false.
Proof.
  intros Hnone Hs. destruct (is_booked s) eqn:Hb; [|done].
  apply elem_of_select_among in Hs as [[Hreq Hty] Hin].
  assert (s ∈ select_booked_among req ty tbl) as Hs
    by (by apply elem_of_select_booked_among).
  rewrite Hnone in Hs. by apply not_elem_of_nil in Hs.
Qed.

Lemma reachable_store_inv db : reachable db → store_inv db.
Proof.
  induction 1 as [|db connect token now ty req uid amt o db' Hreach IH Hbook
                  |db connect o db' Hreach IH Hreset].
  - assert (Hnil : bookings initial_db = []) by (vm_compute; reflexivity).
    assert (Hfree : Forall (λ s, is_booked s = false) (slots initial_db))
      by by_compute.
    unfold store_inv, actively_booked. rewrite Hnil.
    split; [reflexivity|]. split; [|repeat split; constructor].
    intros s Hs. rewrite Forall_forall in Hfree. rewrite (Hfree s Hs).
    split; [discriminate|]. intros (b & Hb & _).
    exfalso. exact (not_elem_of_nil b Hb).
  - assert (Hsame : (∀ m c p r, o ≠ Returned (BookSuccess m c p r)) → db' = db)
      by (by eapply book_slots_no_success_unchanged).
    destruct o as [[msg|m c p r]|e];
      [rewrite Hsame; [done|discriminate]| |rewrite Hsame; [done|discriminate]].
    apply book_slots_success_inv in Hbook
      as (_ & _ & Hnone & Hfresh & s0 & Hsel & _ & _ & _ & _ & ->).
    destruct IH as (Hcat & Hocc & Hact & Hexist & Hslots & Hrefs).
    unfold store_inv. cbn [slots bookings].
    split; [rewrite catalog_of_mark_booked; exact Hcat|]. clear Hcat.
    assert (Hs0 : s0 ∈ select_among req ty (slots db))
      by (rewrite Hsel; apply list_elem_of_singleton; done).
    assert (Hs0free : is_booked s0 = false)
      by (by eapply select_among_free).
    assert (Hs0in : s0 ∈ slots db)
      by (apply elem_of_select_among in Hs0; tauto).
    assert (Hnew : slot_id s0 ∉ b_slot_id <$> bookings db).
    { intros Hin. apply list_elem_of_fmap in Hin as (b & Hid & Hb).
      assert (is_booked s0 = true); [|congruence].
      apply (Hocc s0 Hs0in). exists b. split; [done|]. split; [done|].
      rewrite Forall_forall in Hact. by apply Hact. }
    split; [|split; [|split; [|split]]].
    + intros s' Hs'.
      apply mark_booked_elem in Hs' as (s & Hs & Hid & Hcase).
      unfold actively_booked. cbn [bookings]. rewrite Hid.
      destruct Hcase as [[Hin ->]|[Hout ->]].
      * split; [intros _|done].
        apply list_elem_of_singleton in Hin.
        exists (booking_row_for uid now token amt s0).
        split; [apply elem_of_app; right; apply list_elem_of_singleton; done|].
        by rewrite Hin.
      * rewrite (Hocc s Hs). unfold actively_booked.
        split; intros (b & Hb & Hbid & Hst).
        -- exists b. split; [apply elem_of_app; by left|done].
        -- apply elem_of_app in Hb as [Hb|Hb]; [by eauto|].
           apply list_elem_of_singleton in Hb as ->.
           exfalso. apply Hout. simpl in Hbid. rewrite Hbid.
           by apply list_elem_of_singleton.
    + apply Forall_app. split; [done|]. by repeat constructor.
    + rewrite slot_id_mark_booked. apply Forall_app. split; [done|].
      repeat constructor. simpl. by apply (list_elem_of_fmap_2 slot_id).
    + rewrite fmap_app. apply NoDup_app. split; [done|].
      split; [|apply NoDup_singleton].
      intros x Hx Hx'. simpl in Hx'. apply list_elem_of_singleton in Hx'.
      by subst.
    + rewrite fmap_app. apply NoDup_app. split; [done|].
      split; [|apply NoDup_singleton].
      intros x Hx Hx'. simpl in Hx'. apply list_elem_of_singleton in Hx'.
      by subst.
  - destruct connect as [e|].
    + rewrite reset_all_bookings_connect_error in Hreset.
      by inversion Hreset; subst.
    + rewrite reset_all_bookings_open in Hreset. inversion Hreset; subst.
      destruct IH as (Hcat & _).
      unfold store_inv, actively_booked. cbn [slots bookings].
      split; [rewrite catalog_of_reset; exact Hcat|]. clear Hcat.
      split; [|repeat split; constructor].
      intros s Hs. apply list_elem_of_fmap in Hs as (s1 & -> & _).
      split; [discriminate|]. intros (b & Hb & _).
      exfalso. exact (not_elem_of_nil b Hb).
Qed.

Lemma reachable_db_v1 : reachable db_v1.
Proof.
  unfold db_v1.
  eapply reachable_book; [|apply surjective_pairing].
  apply reachable_init.
Defined.

Lemma reachable_slots_facts db :
  reachable db →
  length (slots db) = 121
  ∧ NoDup (slot_id <$> slots db)
  ∧ NoDup (slot_name <$> slots db)
  ∧ Forall known_tier (slots db).
Proof.
  intros Hreach. apply reachable_store_inv in Hreach as (Hcat & _).
  assert (Hlen : length (catalog_of <$> slots initial_db) = 121)
    by (vm_compute; reflexivity).
  assert (Hids : NoDup ((λ c, c.1.1.1) <$> (catalog_of <$> slots initial_db)))
    by by_compute.
  assert (Hnames : NoDup ((λ c, c.1.2) <$> (catalog_of <$> slots initial_db)))
    by by_compute.
  assert (Htiers : Forall (λ c, c.1.1.2 ∈ ["vip"; "executive"; "normal"])
                     (catalog_of <$> slots initial_db)) by by_compute.
  rewrite <- Hcat in Hlen, Hids, Hnames, Htiers. clear Hcat.
  rewrite length_fmap in Hlen.
  rewrite <- list_fmap_compose in Hids, Hnames.
  rewrite Forall_fmap in Htiers. done.
Qed.

(** ** All or nothing *)

(** X1. In both storage modules a call of [book_slots] either returns the
    success dictionary or leaves the store exactly as it was: a failure
    dictionary, an exception inside the transaction and a connection that
    does not open all change nothing. *)
Theorem book_slots_all_or_nothing connect token now ty req uid amt db :
  let res := database.book_slots connect token now ty req uid amt db in
  let res_pg := database_postgres.book_slots connect token now ty req uid amt db in
  ((∃ m c p r, res.1 = Returned (BookSuccess m c p r)) ∨ res.2 = db)
  ∧ ((∃ m c p r, res_pg.1 = Returned (BookSuccess m c p r)) ∨ res_pg.2 = db).
Proof.
  intros res res_pg.
  assert (Hres : (∃ m c p r, res.1 = Returned (BookSuccess m c p r))
                 ∨ res.2 = db).
  { destruct res as [o db'] eqn:Hbook. simpl.
    destruct o as [[msg|m c p r]|e]; [right|left; eauto|right];
      (eapply book_slots_no_success_unchanged; [exact Hbook|discriminate]). }
  split; [exact Hres|].
  subst res res_pg. by rewrite <- book_slots_same.
Qed.

(** ** The catalog is fixed *)

(** X2. In every store reached from the initial catalog by calls of
    [book_slots] and [reset_all_bookings] the slots are the 121 of the
    catalog, with the ids, tiers, names and prices they were created with;
    ids and names stay pairwise distinct.  No call adds, removes, renames
    or reprices a slot. *)
Theorem reachable_catalog_fixed db :
  reachable db →
  catalog_of <$> slots db = catalog_of <$> slots initial_db
  ∧ length (slots db) = 121
  ∧ NoDup (slot_id <$> slots db)
  ∧ NoDup (slot_name <$> slots db).
Proof.
  intros Hreach.
  destruct (reachable_slots_facts db Hreach) as (Hlen & Hids & Hnames & _).
  apply reachable_store_inv in Hreach as (Hcat & _).
  repeat apply conj; assumption.
Qed.

Lemma reachable_catalog_fixed_witness :
  catalog_of <$> slots db_v1_v2 = catalog_of <$> slots initial_db
  ∧ length (slots db_v1_v2) = 121
  ∧ NoDup (slot_id <$> slots db_v1_v2)
  ∧ NoDup (slot_name <$> slots db_v1_v2).
Proof. apply reachable_catalog_fixed, reachable_db_v1_v2. Defined.

(** ** No slot is booked twice *)



(** ** A reference that is already stored *)

(** X4. There is no second try on a clash of references: when the request
    resolves to one free slot but the generated reference is already the
    reference of a booking row, [book_slots] raises the integrity error of
    the [UNIQUE] column and the store stays as it was, the slot free. *)
Theorem book_slots_reference_clash token now ty req uid amt db s :
  select_among req ty (slots db) = [s] →
  is_booked s = false →
  token ∈ b_booking_reference <$> bookings db →
  database.book_slots None token now ty req uid amt db
  = (Raised unique_reference_error, db).
Proof.
  intros Hsel Hfree Hclash. rewrite book_slots_unfold.
  destruct (decide (req = [])) as [->|_].
  { assert (s ∈ select_among [] ty (slots db)) as Hs
      by (rewrite Hsel; by apply list_elem_of_singleton).
    apply elem_of_select_among in Hs as [[Hs _] _].
    by apply not_elem_of_nil in Hs. }
  destruct (decide (select_booked_among req ty (slots db) ≠ [])) as [Hocc|_].
  { exfalso. apply Hocc. apply elem_of_nil_inv. intros s' Hs'.
    apply elem_of_select_booked_among in Hs' as [(Hreq & Hty & Hb) Hin].
    assert (s' ∈ select_among req ty (slots db)) as Hs'
      by (apply elem_of_select_among; eauto).
    rewrite Hsel in Hs'. apply list_elem_of_singleton in Hs' as ->.
    congruence. }
  rewrite Hsel. by destruct (decide (token ∈ _)).
Qed.

Lemma book_slots_reference_clash_witness :
  database.book_slots None "9F86D081884C7D65" 1700000500 "vip" ["V2"]
    (Some 2%Z) 518 db_v1
  = (Raised unique_reference_error, db_v1).
Proof.
  apply (book_slots_reference_clash _ _ _ _ _ _ _
           (mkSlot 2 "vip" "V2" 500 false)).
  - vm_compute. reflexivity.
  - reflexivity.
  - by_compute.
Defined.

(** ** Booking the same slot again *)

Lemma select_among_mark_booked req ty ids tbl :
  select_among req ty (mark_booked ids tbl)
  = mark_booked ids (select_among req ty tbl).
Proof.
  unfold select_among, mark_booked.
  induction tbl as [|s tbl IH]; [done|].
  rewrite fmap_cons, !filter_cons, IH.
  assert (Hsame : ∀ s',
    s' = (if bool_decide (slot_id s ∈ ids) then set_is_booked true s else s) →
    (slot_name s' ∈ req ∧ slot_type s' = ty)
    ↔ (slot_name s ∈ req ∧ slot_type s = ty)).
  { intros s' ->. by case_bool_decide. }
  specialize (Hsame _ eq_refl).
  destruct (decide (slot_name s ∈ req ∧ slot_type s = ty)) as [Hs|Hs];
    destruct (decide _) as [Hs'|Hs']; try done; tauto.
Qed.

Lemma select_booked_among_filter req ty tbl :
  select_booked_among req ty tbl
  = filter (λ s, is_booked s = true) (select_among req ty tbl).
Proof.
  unfold select_booked_among, select_among.
  rewrite list_filter_filter. apply list_filter_iff. intros s. tauto.
Qed.

(** X5. Once a call of [book_slots] has succeeded, asking for the same
    names of the same tier again, with whatever reference, user and amount,
    is answered by the failure "Slots already booked: " followed by the
    name of the slot just booked, and changes nothing. *)
Theorem book_slots_again_is_refused
    token now ty req uid amt db m c p r db' token2 now2 uid2 amt2 :
  database.book_slots None token now ty req uid amt db
    = (Returned (BookSuccess m c p r), db') →
  ∃ name,
    name ∈ req
    ∧ database.book_slots None token2 now2 ty req uid2 amt2 db'
      = (Returned (BookFailure ("Slots already booked: " +:+ name)), db').
Proof.
  intros Hbook.
  apply book_slots_success_inv in Hbook
    as (_ & Hne & _ & _ & s & Hsel & _ & _ & _ & _ & ->).
  exists (slot_name s).
  assert (Hs : s ∈ select_among req ty (slots db))
    by (rewrite Hsel; by apply list_elem_of_singleton).
  apply elem_of_select_among in Hs as [[Hreq _] _].
  split; [done|].
  rewrite book_slots_unfold. cbn [slots].
  destruct (decide (req = [])); [done|].
  rewrite select_booked_among_filter, select_among_mark_booked, Hsel.
  unfold mark_booked. cbn [fmap list_fmap].
  rewrite bool_decide_eq_true_2 by (by apply list_elem_of_singleton).
  rewrite filter_cons, filter_nil. simpl.
  destruct (decide (true = true)); [|done].
  by destruct (decide ([set_is_booked true s] ≠ [])).
Qed.

Lemma book_slots_again_is_refused_witness :
  ∃ name,
    name ∈ ["V1"]
    ∧ database.book_slots None "2C26B46B68FFC68F" 1700000200 "vip" ["V1"]
        (Some 3%Z) 518 db_v1
      = (Returned (BookFailure ("Slots already booked: " +:+ name)), db_v1).
Proof.
  eapply (book_slots_again_is_refused "9F86D081884C7D65" 1700000000 "vip"
            ["V1"] (Some 1%Z) 518 initial_db).
  unfold db_v1. vm_compute. reflexivity.
Defined.

(** ** Statistics add up *)

Lemma length_filter_booked (l : list SlotRow) :
  length (filter (λ s, is_booked s = true) l)
  + length (filter (λ s, is_booked s = false) l)
  = length l.
Proof.
  induction l as [|s l IH]; [done|].
  rewrite !filter_cons.
  destruct (is_booked s); simpl;
    repeat (destruct (decide _); try done); simpl; lia.
Qed.

(** X6. On every store both modules return the same statistics; a tier
    has an entry exactly when the table has a slot of that tier, and in
    every entry [booked + available = total] with [total] at least 1. *)
Theorem get_booking_stats_add_up db :
  ∃ stats,
    database.get_booking_stats None db = (Returned stats, db)
    ∧ database_postgres.get_booking_stats None db = (Returned stats, db)
    ∧ (∀ ty, is_Some (stats !! ty) ↔ ty ∈ slot_type <$> slots db)
    ∧ (∀ ty e, stats !! ty = Some e →
         st_booked e + st_available e = st_total e ∧ 0 < st_total e).
Proof.
  destruct (get_booking_stats_open db) as (stats & Hstats & Hdom & Hval).
  exists stats. split; [done|].
  split; [by rewrite <- get_booking_stats_same|].
  split.
  - intros ty. split; [|apply Hdom].
    intros [e He]. by apply Hval in He as [? _].
  - intros ty e He. apply Hval in He as [Hty ->]. simpl.
    split; [apply length_filter_booked|].
    apply list_elem_of_fmap in Hty as (s & -> & Hs).
    assert (s ∈ of_tier (slot_type s) (slots db)) as Hin.
    { unfold of_tier. by rewrite list_elem_of_filter. }
    destruct (of_tier (slot_type s) (slots db)); simpl; [|lia].
    by apply not_elem_of_nil in Hin.
Qed.

(** ** Reset gives back the initial catalog *)

Lemma reset_slots_of_catalog (l1 l2 : list SlotRow) :
  catalog_of <$> l1 = catalog_of <$> l2 →
  set_is_booked false <$> l1 = set_is_booked false <$> l2.
Proof.
  intros Hcat.
  assert (Hre : ∀ l : list SlotRow,
    set_is_booked false <$> l
    = (λ c : nat * string * string * Z, mkSlot c.1.1.1 c.1.1.2 c.1.2 c.2 false)
        <$> (catalog_of <$> l)).
  { intros l. rewrite <- list_fmap_compose. by apply list_fmap_ext. }
  by rewrite !Hre, Hcat.
Qed.

(** X7. From every reachable store, whatever was booked, a reset on an
    open connection returns its success dictionary and leaves exactly the
    store the application started with. *)
Theorem reset_restores_initial_db db :
  reachable db →
  database.reset_all_bookings None db
  = (Returned (mkReset true "All bookings reset" None), initial_db).
Proof.
  intros Hreach. apply reachable_store_inv in Hreach as (Hcat & _).
  rewrite reset_all_bookings_open.
  apply reset_slots_of_catalog in Hcat. rewrite Hcat. clear Hcat.
  assert (Hinit : mkDB (set_is_booked false <$> slots initial_db) []
                  = initial_db) by (vm_compute; reflexivity).
  rewrite Hinit. reflexivity.
Qed.

Lemma reset_restores_initial_db_witness :
  database.reset_all_bookings None db_v1_v2
  = (Returned (mkReset true "All bookings reset" None), initial_db).
Proof. apply reset_restores_initial_db, reachable_db_v1_v2. Defined.

(** X8. The PostgreSQL [reset_all_bookings] never raises.  It returns
    either the success dictionary, and then the connection was open, every
    slot is free and no booking row is left, or a failure dictionary that
    carries the text of the exception, and then the store is as it was. *)
Theorem postgres_reset_never_raises connect db :
  ∃ r db',
    database_postgres.reset_all_bookings connect db = (Returned r, db')
    ∧ (rr_success r = true →
         connect = None
         ∧ db' = mkDB (set_is_booked false <$> slots db) []
         ∧ r = mkReset true "All bookings reset" None)
    ∧ (rr_success r = false →
         ∃ e, connect = Some e ∧ db' = db
              ∧ r = mkReset false ("Failed to reset bookings: " +:+ exn_str e)
                      (Some (exn_str e))).
Proof.
  destruct connect as [e|].
  - eexists _, _. split; [reflexivity|]. simpl.
    split; [discriminate|]. intros _. by exists e.
  - eexists _, _. split; [reflexivity|]. simpl.
    split; [done|discriminate].
Qed.

(** ** Looking bookings up *)

Lemma elem_of_join_bookings_slots db b s :
  (b, s) ∈ join_bookings_slots db
  ↔ b ∈ bookings db ∧ s ∈ slots db ∧ slot_id s = b_slot_id b.
Proof.
  unfold join_bookings_slots. rewrite list_elem_of_bind. split.
  - intros (b' & Hin & Hb').
    apply list_elem_of_bind in Hin as (s' & Hin & Hs').
    apply list_elem_of_singleton in Hin. inversion Hin; subst.
    apply list_elem_of_filter in Hs' as [Hid Hs']. done.
  - intros (Hb & Hs & Hid). exists b. split; [|done].
    apply list_elem_of_bind. exists s.
    split; [by apply list_elem_of_singleton|].
    by apply list_elem_of_filter.
Qed.

Lemma rows_of_unknown_reference db ref :
  ref ∉ b_booking_reference <$> bookings db →
  rows_of ref (join_bookings_slots db) = [].
Proof.
  intros Hout. apply elem_of_nil_inv. intros [b s] Hrow.
  unfold rows_of in Hrow. apply list_elem_of_filter in Hrow as [Href Hin].
  apply elem_of_join_bookings_slots in Hin as (Hb & _).
  apply Hout. unfold ref_of in Href. simpl in Href. rewrite <- Href.
  by apply list_elem_of_fmap_2.
Qed.






(** X9. A reference that no booking row carries is answered by [None]:
    the lookup returns, it does not raise, and the store is untouched. *)
Theorem get_booking_by_reference_not_found db ref :
  ref ∉ b_booking_reference <$> bookings db →
  database.get_booking_by_reference None ref db = (Returned None, db).
Proof.
  intros Hout.
  pose proof (rows_of_unknown_reference db ref Hout) as Hrows.
  unfold database.get_booking_by_reference, get_db_connection.
  unfold mbind, Tx_bind, tx_bind, tx_get, mret, Tx_ret, tx_ret.
  unfold rows_of, ref_of in Hrows. by rewrite Hrows.
Qed.

Lemma get_booking_by_reference_not_found_witness :
  database.get_booking_by_reference None "0000000000000000" db_v1_v2
  = (Returned None, db_v1_v2).
Proof.
  apply get_booking_by_reference_not_found.
  assert (Hrefs : b_booking_reference <$> bookings db_v1_v2
                  = ["9F86D081884C7D65"; "5E884898DA280471"])
    by (vm_compute; reflexivity).
  rewrite Hrefs. intros Hin.
  repeat (apply elem_of_cons in Hin as [Hin|Hin]; [discriminate Hin|]).
  exact (not_elem_of_nil _ Hin).
Defined.



Lemma get_user_bookings_open db user_id :
  database.get_user_bookings None user_id db
  = (Returned
       (foldl group_step [] (merge_sort time_desc (user_rows db user_id))).*2,
     db).
Proof. reflexivity. Qed.


(** X11. [get_user_bookings] returns only bookings of the user it is asked
    for: every entry carries the reference of a booking row whose user id is
    that user.  A booking stored without a user (the default [user_id=None]
    of [book_slots]) is returned for no argument, and asking for user [None]
    gives the empty list. *)
Theorem get_user_bookings_only_own db user_id :
  ∃ result,
    database.get_user_bookings None user_id db = (Returned result, db)
    ∧ Forall (λ e, ∃ u b, user_id = Some u ∧ b ∈ bookings db
                          ∧ b_user_id b = Some u
                          ∧ b_booking_reference b = booking_reference e)
             result
    ∧ (user_id = None → result = []).
Proof.
  eexists. split; [apply get_user_bookings_open|].
  set (sorted := merge_sort time_desc (user_rows db user_id)).
  assert (Hperm : sorted ≡ₚ user_rows db user_id)
    by apply merge_sort_Permutation.
  pose proof (group_fold_ok sorted) as (_ & _ & Hent).
  set (grouped := foldl group_step [] sorted) in *.
  assert (Hown : Forall (λ e, ∃ u b, user_id = Some u ∧ b ∈ bookings db
                          ∧ b_user_id b = Some u
                          ∧ b_booking_reference b = booking_reference e)
                   grouped.*2).
  { apply Forall_forall. intros e He.
    apply list_elem_of_fmap in He as ([k e'] & -> & Hke). simpl.
    apply Hent in Hke.
    apply booking_of_rows_first in Hke as (first & rest & Hrows & Href & _).
    assert (first ∈ rows_of k sorted) as Hfirst
      by (rewrite Hrows; apply elem_of_cons; by left).
    unfold rows_of in Hfirst. apply list_elem_of_filter in Hfirst as [_ Hfirst].
    rewrite Hperm in Hfirst. unfold user_rows in Hfirst.
    apply list_elem_of_filter in Hfirst as [Huser Hjoin].
    destruct first as [b s]. simpl in *.
    apply elem_of_join_bookings_slots in Hjoin as (Hb & _).
    unfold sql_eq in Huser.
    destruct (b_user_id b) as [u|] eqn:Hu; [|done].
    destruct user_id as [u'|]; [|done]. subst u'.
    exists u, b. by rewrite Href. }
  split; [exact Hown|].
  intros ->. destruct (grouped.*2) as [|e l]; [done|].
  apply Forall_cons in Hown as [(u & b & Hnone & _) _]. discriminate Hnone.
Qed.



(** ** Status and statistics tell the same story *)

Lemma status_init_Some ty e0 :
  status_init !! ty = Some e0 →
  ts_slots e0 = [] ∧ ts_booked e0 = []
  ∧ (ty, ts_price e0) ∈ [("vip", 500%Z); ("executive", 350%Z); ("normal", 320%Z)].
Proof.
  unfold status_init. intros Hlook.
  repeat (apply lookup_insert_Some in Hlook as [[<- <-]|[_ Hlook]];
          [by_compute|]).
  by rewrite lookup_empty in Hlook.
Qed.

Lemma status_init_is_Some ty :
  is_Some (status_init !! ty) ↔ ty ∈ ["vip"; "executive"; "normal"].
Proof.
  split.
  - intros [e0 He0]. apply status_init_Some in He0 as (_ & _ & Hin).
    apply (list_elem_of_fmap_2 fst) in Hin. exact Hin.
  - rewrite !elem_of_cons. intros [->|[->|[->|Hnil]]]; [by eexists..|].
    by apply not_elem_of_nil in Hnil.
Qed.

(** X13. On a store whose slots are all of the three tiers, the status
    snapshot and the statistics agree: for every tier the snapshot has the
    fixed price of the tier (500, 350, 320), its booked names are among its
    slot names, and the numbers of slot names and of booked names are the
    [total] and [booked] of the statistics; a tier without statistics has
    no slot name in the snapshot. *)
Theorem status_agrees_with_stats db :
  (∀ s, s ∈ slots db → known_tier s) →
  ∃ st stats,
    database.get_parking_status None db = (Returned st, db)
    ∧ database.get_booking_stats None db = (Returned stats, db)
    ∧ ∀ ty e, st !! ty = Some e →
        (ty, ts_price e)
          ∈ [("vip", 500%Z); ("executive", 350%Z); ("normal", 320%Z)]
        ∧ ts_booked e ⊆ ts_slots e
        ∧ match stats !! ty with
          | Some se => st_total se = length (ts_slots e)
                       ∧ st_booked se = length (ts_booked e)
          | None => ts_slots e = []
          end.
Proof.
  intros Hknown.
  destruct (status_of_rows (merge_sort by_type_id (slots db)) (slots db))
    as (st & Hloop & Hst); [apply merge_sort_Permutation|done|].
  destruct (get_booking_stats_open db) as (stats & Hstats & Hdom & Hval).
  exists st, stats.
  split.
  { unfold database.get_parking_status.
    unfold get_db_connection, mbind, Tx_bind, tx_bind, tx_get, mret, Tx_ret,
      tx_ret.
    unfold mbind, Tx_bind, tx_bind, tx_get. by rewrite Hloop. }
  split; [done|].
  intros ty e He. specialize (Hst ty). rewrite He in Hst.
  destruct (status_init !! ty) as [e0|] eqn:He0; simpl in Hst;
    inversion Hst as [? ? (Hprice & Hslots & Hbooked)|]; subst.
  apply status_init_Some in He0 as (Hs0 & Hb0 & Hp0).
  unfold status_extend in Hprice, Hslots, Hbooked. simpl in *.
  rewrite Hs0 in Hslots. rewrite Hb0 in Hbooked. simpl in *.
  split; [by rewrite Hprice|].
  split.
  - intros x Hx. rewrite Hslots. rewrite Hbooked in Hx.
    apply list_elem_of_fmap in Hx as (s & -> & Hs).
    apply list_elem_of_filter in Hs as [_ Hs].
    by apply list_elem_of_fmap_2.
  - destruct (stats !! ty) as [se|] eqn:Hse.
    + apply Hval in Hse as [_ ->]. simpl.
      by rewrite Hslots, Hbooked, !length_fmap.
    + assert (of_tier ty (slots db) = []) as Hnil.
      { apply elem_of_nil_inv. intros s Hs. unfold of_tier in Hs.
        apply list_elem_of_filter in Hs as [<- Hs].
        destruct (Hdom (slot_type s)) as [se Hsome];
          [by apply list_elem_of_fmap_2|]. congruence. }
      rewrite Hnil in Hslots. by apply Permutation_nil_r in Hslots.
Qed.

Lemma status_agrees_with_stats_witness :
  ∃ st stats,
    database.get_parking_status None db_v1_v2 = (Returned st, db_v1_v2)
    ∧ database.get_booking_stats None db_v1_v2 = (Returned stats, db_v1_v2)
    ∧ ∀ ty e, st !! ty = Some e →
        (ty, ts_price e)
          ∈ [("vip", 500%Z); ("executive", 350%Z); ("normal", 320%Z)]
        ∧ ts_booked e ⊆ ts_slots e
        ∧ match stats !! ty with
          | Some se => st_total se = length (ts_slots e)
                       ∧ st_booked se = length (ts_booked e)
          | None => ts_slots e = []
          end.
Proof.
  apply status_agrees_with_stats.
  apply Forall_forall.
  exact (proj2 (proj2 (proj2 (reachable_slots_facts _ reachable_db_v1_v2)))).
Defined.

(** ** A slot of an unknown tier *)

Lemma status_loop_unknown rows st :
  (∀ ty, is_Some (st !! ty) ↔ ty ∈ ["vip"; "executive"; "normal"]) →
  (∃ s, s ∈ rows ∧ ¬ known_tier s) →
  ∃ k, status_loop st rows = Raised (KeyError k)
       ∧ k ∈ slot_type <$> rows
       ∧ k ∉ ["vip"; "executive"; "normal"].
Proof.
  revert st. induction rows as [|row rows IH]; intros st Hdom (s & Hs & Hbad).
  { by apply not_elem_of_nil in Hs. }
  simpl. unfold status_step.
  destruct (st !! slot_type row) as [e|] eqn:He.
  - match goal with
    | |- context [status_loop (<[_ := ?e2]> st) rows] => set (entry := e2)
    end.
    destruct (IH (<[slot_type row := entry]> st)) as (k & Hloop & Hk & Hout).
    + intros ty. rewrite <- Hdom.
      destruct (decide (slot_type row = ty)) as [<-|Hne].
      * rewrite lookup_insert_eq, He. split; by eexists.
      * by rewrite lookup_insert_ne.
    + exists s. split; [|done].
      apply elem_of_cons in Hs as [->|Hs]; [|done].
      exfalso. apply Hbad. unfold known_tier. apply Hdom. by eexists.
    + exists k. split; [done|]. split; [|done].
      rewrite ?fmap_cons. apply elem_of_cons. by right.
  - exists (slot_type row). split; [done|].
    split; [rewrite ?fmap_cons; apply elem_of_cons; by left|].
    intros Hin. apply Hdom in Hin as [e' He']. congruence.
Qed.

(** X14. When the table holds a slot whose tier is none of [vip],
    [executive], [normal], [get_parking_status] does not return a snapshot
    in either module: it raises [KeyError] with such a tier as key. *)
Theorem get_parking_status_unknown_tier db :
  (∃ s, s ∈ slots db ∧ ¬ known_tier s) →
  ∃ k k',
    database.get_parking_status None db = (Raised (KeyError k), db)
    ∧ database_postgres.get_parking_status None db
      = (Raised (KeyError k'), db)
    ∧ k ∈ slot_type <$> slots db ∧ (k ∉ ["vip"; "executive"; "normal"])
    ∧ k' ∈ slot_type <$> slots db ∧ k' ∉ ["vip"; "executive"; "normal"].
Proof.
  intros (s & Hs & Hbad).
  destruct (status_loop_unknown (merge_sort by_type_id (slots db)) status_init)
    as (k & Hloop & Hk & Hout); [apply status_init_is_Some| |].
  { exists s. split; [|done]. by rewrite merge_sort_Permutation. }
  destruct (status_loop_unknown (merge_sort by_type_name (slots db)) status_init)
    as (k' & Hloop' & Hk' & Hout'); [apply status_init_is_Some| |].
  { exists s. split; [|done]. by rewrite merge_sort_Permutation. }
  exists k, k'.
  unfold database.get_parking_status, database_postgres.get_parking_status.
  unfold get_db_connection, mbind, Tx_bind, tx_bind, tx_get, mret, Tx_ret,
    tx_ret.
  unfold mbind, Tx_bind, tx_bind, tx_get.
  rewrite Hloop, Hloop'.
  rewrite merge_sort_Permutation in Hk, Hk'. done.
Qed.

Lemma get_parking_status_unknown_tier_witness :
  ∃ k k',
    database.get_parking_status None
      (mkDB [mkSlot 1 "vip" "V1" 500 false; mkSlot 2 "bike" "B1" 50 false] [])
    = (Raised (KeyError k),
       mkDB [mkSlot 1 "vip" "V1" 500 false; mkSlot 2 "bike" "B1" 50 false] [])
    ∧ database_postgres.get_parking_status None
        (mkDB [mkSlot 1 "vip" "V1" 500 false; mkSlot 2 "bike" "B1" 50 false] [])
      = (Raised (KeyError k'),
         mkDB [mkSlot 1 "vip" "V1" 500 false; mkSlot 2 "bike" "B1" 50 false] [])
    ∧ k ∈ slot_type
           <$> slots (mkDB [mkSlot 1 "vip" "V1" 500 false;
                            mkSlot 2 "bike" "B1" 50 false] [])
    ∧ (k ∉ ["vip"; "executive"; "normal"])
    ∧ k' ∈ slot_type
            <$> slots (mkDB [mkSlot 1 "vip" "V1" 500 false;
                             mkSlot 2 "bike" "B1" 50 false] [])
    ∧ k' ∉ ["vip"; "executive"; "normal"].
Proof.
  apply get_parking_status_unknown_tier.
  exists (mkSlot 2 "bike" "B1" 50 false). split; by_compute.
Defined.

(** ** Users *)












(** X19. The first initialisation creates a working administrator: on an
    empty [users] table [init_db] inserts admin@parkeasy.com with the hash
    of "admin123" and type [admin], and logging in with that email and
    password then succeeds as [admin]; on a table that has a row [init_db]
    changes nothing. *)
Theorem init_db_default_admin sha256 now :
  (∃ admin,
     database_users.init_db_users sha256 None now [] = (UReturned tt, [admin])
     ∧ u_user_type admin = "admin"
     ∧ auth.authenticate_user sha256 None "admin@parkeasy.com" "admin123"
         [admin]
       = (UReturned (auth.AuthSuccess admin), [admin]))
  ∧ ∀ u users,
      database_users.init_db_users sha256 None now (u :: users)
      = (UReturned tt, u :: users).
Proof.
  split; [|done].
  eexists. split; [reflexivity|]. split; [reflexivity|].
  unfold auth.authenticate_user.
  destruct (decide ("admin@parkeasy.com" = "" ∨ "admin123" = ""))
    as [[?|?]|_]; [done..|].
  unfold database_users.get_user_by_email, users_connection.
  rewrite filter_cons, filter_nil. simpl.
  destruct (decide ("admin@parkeasy.com" = "admin@parkeasy.com")); [|done].
  simpl. by destruct (decide (sha256 "admin123" = sha256 "admin123")).
Qed.

(** ** The booking and reset routes *)

Lemma auth_get_user_by_id_returns connect user_id users :
  ∃ r, auth.get_user_by_id connect user_id users = (UReturned r, users)
       ∧ ∀ info, r = Some info →
           connect = None
           ∧ ∃ u, u ∈ users ∧ u_id u = user_id
                  ∧ ui_user_type info = u_user_type u
                  ∧ ui_full_name info = u_full_name u
                  ∧ ui_email info = u_email u.
Proof.
  unfold auth.get_user_by_id, database_users.get_user_by_id, users_connection.
  destruct connect as [e|].
  { eexists. split; [reflexivity|]. discriminate. }
  eexists. split; [reflexivity|].
  intros info Hinfo.
  destruct (head (filter (λ u, u_id u = user_id) users)) as [u|] eqn:Hhead;
    [|discriminate].
  assert (u ∈ filter (λ u, u_id u = user_id) users) as Hin.
  { destruct (filter _ users) as [|x l]; [done|].
    simpl in Hhead. inversion Hhead; subst. apply elem_of_cons. by left. }
  apply list_elem_of_filter in Hin as [Hid Hin].
  simpl in Hinfo. inversion Hinfo; subst. simpl. eauto 10.
Qed.





(** X21. The booking is committed before the user is looked up.  When
    [book_slots] has succeeded for a logged-in user and the connection of
    the user lookup does not open, [auth.get_user_by_id] gives [None], the
    route ends in a [TypeError] instead of an answer, and the slot stays
    booked: the booking row of the call is in the store. *)
Theorem book_slots_route_crash_keeps_booking
    uid ty names hour token now e db users m c p r db' :
  ty ≠ "" →
  database.book_slots None token now ty names (Some uid)
      (app.grand_total
         (app.calculate_total_fees hour
            (Z.of_nat (length names) * app_routes.tier_price ty))) db
    = (Returned (BookSuccess m c p r), db') →
  app_routes.book_slots_route (Some uid) (Some ty) names hour token now
      None (Some e) (db, users)
    = (app_routes.Crashed
         (app_routes.TypeError "'NoneType' object is not subscriptable"),
       (db', users))
  ∧ length (bookings db') = S (length (bookings db))
  ∧ token ∈ b_booking_reference <$> bookings db'.
Proof.
  intros Hty Hbook. unfold app_routes.book_slots_route.
  pose proof Hbook as Hinv.
  apply book_slots_success_inv in Hinv
    as (_ & Hne & _ & _ & s & _ & _ & _ & _ & _ & ->).
  destruct (decide (ty = "" ∨ names = [])) as [[?|?]|_]; [done..|].
  rewrite Hbook. cbn [bookings].
  split; [reflexivity|].
  split; [rewrite length_app; simpl; lia|].
  rewrite fmap_app. apply elem_of_app. right.
  by apply list_elem_of_singleton.
Qed.

Lemma book_slots_route_crash_keeps_booking_witness :
  app_routes.book_slots_route (Some 1%Z) (Some "vip") ["V1"] 14
      "9F86D081884C7D65" 1700000000 None
      (Some (OperationalError "unable to open database file"))
      (initial_db, [])
    = (app_routes.Crashed
         (app_routes.TypeError "'NoneType' object is not subscriptable"),
       (db_v1, []))
  ∧ length (bookings db_v1) = S (length (bookings initial_db))
  ∧ "9F86D081884C7D65" ∈ b_booking_reference <$> bookings db_v1.
Proof.
  apply (book_slots_route_crash_keeps_booking 1%Z "vip" ["V1"] 14
           "9F86D081884C7D65" 1700000000
           (OperationalError "unable to open database file") initial_db []
           "Successfully booked 1 slots" 1 500 "9F86D081884C7D65").
  - discriminate.
  - unfold db_v1. vm_compute. reflexivity.
Defined.

(** X22. [book_slots_route] never touches [users], and it changes the
    booking tables only through a successful [book_slots] of a logged-in
    user: without a session it answers 401 whatever the request holds, and
    in every other case in which it does not get a success from
    [book_slots] the store is as it was. *)
Theorem book_slots_route_guarded
    session slot_type names hour token now connect connect_auth db users :
  let res := app_routes.book_slots_route session slot_type names hour token
               now connect connect_auth (db, users) in
  res.2.2 = users
  ∧ (session = None →
       res = (app_routes.Responded
                (app_routes.LoginRequired "Please login to book parking slots",
                 401),
              (db, users)))
  ∧ (res.2.1 = db
     ∨ ∃ uid ty amount m c p r,
         session = Some uid ∧ slot_type = Some ty
         ∧ database.book_slots connect token now ty names (Some uid) amount db
           = (Returned (BookSuccess m c p r), res.2.1)).
Proof.
  unfold app_routes.book_slots_route.
  destruct session as [uid|]; [|simpl; by auto].
  destruct slot_type as [ty|]; [|simpl; split; [done|]; split; [done|by left]].
  destruct (decide (ty = "" ∨ names = []));
    [simpl; split; [done|]; split; [done|by left]|].
  set (amount := app.grand_total _).
  destruct (database.book_slots connect token now ty names (Some uid)
              amount db) as [[[msg|msg c p r]|e] db1] eqn:Hbook.
  - simpl. split; [done|]. split; [done|]. left.
    eapply book_slots_no_success_unchanged; [exact Hbook|discriminate].
  - destruct (auth_get_user_by_id_returns connect_auth uid users)
      as (info & Hauth & _).
    rewrite Hauth.
    destruct info as [info|]; simpl; (split; [done|]; split; [done|]);
      right; exists uid, ty, amount, msg, c, p, r; done.
  - simpl. split; [done|]. split; [done|]. left.
    eapply book_slots_no_success_unchanged; [exact Hbook|discriminate].
Qed.

(** X23. Only an administrator resets.  [reset_bookings] never ends in an
    exception and never touches [users]; the booking tables change only
    when the session user is a stored user of type [admin] or [staff] and
    both connections open.  On its own path, without a session, the answer
    is the JSON error 401. *)
Theorem reset_bookings_only_admin
    req session connect_auth connect db users :
  let res := app_routes.reset_bookings req session connect_auth connect
               (db, users) in
  res.2.2 = users
  ∧ (∃ a, res.1 = app_routes.Responded a)
  ∧ (res.2.1 = db
     ∨ res.2.1 = mkDB (set_is_booked false <$> slots db) []
       ∧ connect_auth = None ∧ connect = None
       ∧ ∃ u, u ∈ users ∧ session = Some (u_id u)
              ∧ u_user_type u ∈ ["admin"; "staff"])
  ∧ (app_routes.path req = "/api/reset-bookings" → session = None →
       res.1 = app_routes.Responded
                 (app_routes.AuthError "Authentication required" 401)).
Proof.
  unfold app_routes.reset_bookings, app_routes.admin_required.
  destruct session as [uid|].
  - destruct (auth_get_user_by_id_returns connect_auth uid users)
      as (info & Hauth & Hinfo).
    rewrite Hauth. destruct info as [info|];
      [|simpl; split; [done|]; split; [by eexists|]; split; [by left|done]].
    destruct (Hinfo info eq_refl) as (-> & u & Hu & Hid & Hty & _).
    destruct (decide (ui_user_type info ∈ ["admin"; "staff"])) as [Hadmin|];
      [|simpl; split; [done|]; split; [by eexists|]; split; [by left|done]].
    destruct connect as [e|]; simpl.
    + split; [done|]. split; [by eexists|]. split; [by left|done].
    + split; [done|]. split; [by eexists|]. split; [|done].
      right. split; [done|]. split; [done|]. split; [done|].
      exists u. rewrite Hid, <- Hty. done.
  - split.
    { by destruct (app_routes.wants_json req). }
    split.
    { destruct (app_routes.wants_json req); by eexists. }
    split.
    { left. by destruct (app_routes.wants_json req). }
    intros Hpath _. unfold app_routes.wants_json. rewrite Hpath. reflexivity.
Qed.
